(** * mcpk: the process registry of the [mcpk] command line tool

    A shallow embedding of [src/main.ts].  The program keeps a registry of
    running servers in one JSON file ([~/.mcpk/running.json]); every command
    reads the file with [JSON.parse], works on the resulting JavaScript
    object and, for [start] and [stop], writes it back with
    [JSON.stringify (servers, null, 2)].

    The development has these parts:
    - [Text]: decimal numerals and JSON string literals;
    - [Js]: JavaScript values, property lookup on ordinary objects
      (own properties in property order, then [Object.prototype]),
      [JSON.stringify] with a two-space gap and [JSON.parse];
    - [Mcpk]: the functions and the four command actions of [main.ts], in a
      small monad that threads the file, the trace of effects and exceptions;
    - [Registry]: the records of the registry as data, and the worlds the
      tool reaches;
    - the proofs: [JSON.parse] reads back what [JSON.stringify] wrote, what
      each command does on a registry, and the properties of the
      specification.

    Strings are modelled by their UTF-8 bytes ([string] of the standard
    library): every character the program inspects (slash, at sign, the
    JSON punctuation) is ASCII, so the byte view is exact on well-formed
    text. *)

From Stdlib Require Import List String Ascii ZArith NArith Bool Lia Arith.
Import ListNotations.
Local Open Scope string_scope.

Set Implicit Arguments.

(* ================================================================== *)
(** ** Text: characters, decimal numerals, JSON string literals        *)
(* ================================================================== *)

Module Text.

Definition dquote : ascii := "034"%char.
Definition backslash : ascii := "092"%char.
Definition newline : ascii := "010"%char.

Definition nl : string := String newline EmptyString.

(** [n] spaces. *)
Fixpoint spaces (n : nat) : string :=
  match n with
  | O => EmptyString
  | S k => String " " (spaces k)
  end.

(** Array.prototype.join on strings. *)
Fixpoint join (sep : string) (l : list string) : string :=
  match l with
  | [] => EmptyString
  | [x] => x
  | x :: t => x ++ sep ++ join sep t
  end.

Definition is_digit (c : ascii) : bool :=
  let n := N_of_ascii c in (48 <=? n)%N && (n <=? 57)%N.

Definition digit_val (c : ascii) : N := (N_of_ascii c - 48)%N.

Definition digit_char (d : N) : ascii := ascii_of_N (48 + d).

(** Decimal digits of [n], most significant first, pushed in front of
    [acc].  [fuel] bounds the number of digits. *)
Fixpoint to_digits (fuel : nat) (n : N) (acc : string) : string :=
  match fuel with
  | O => acc
  | S f =>
      if (n <? 10)%N then String (digit_char n) acc
      else to_digits f (n / 10)%N (String (digit_char (n mod 10)%N) acc)
  end.

Definition string_of_N (n : N) : string :=
  to_digits (S (N.to_nat (N.log2 n))) n EmptyString.

(** Number::toString on an integer below 10^21 in absolute value. *)
Definition string_of_Z (z : Z) : string :=
  if (z <? 0)%Z then String "-" (string_of_N (Z.abs_N z))
  else string_of_N (Z.abs_N z).

(** The longest prefix of decimal digits, accumulated in [acc]. *)
Fixpoint read_digits (s : string) (acc : N) : N * string :=
  match s with
  | String c r =>
      if is_digit c then read_digits r (10 * acc + digit_val c)%N
      else (acc, s)
  | EmptyString => (acc, s)
  end.

Definition hex_char (d : N) : ascii :=
  if (d <? 10)%N then ascii_of_N (48 + d) else ascii_of_N (87 + d).

Definition hex_val (c : ascii) : option N :=
  let n := N_of_ascii c in
  if (48 <=? n)%N && (n <=? 57)%N then Some (n - 48)%N
  else if (97 <=? n)%N && (n <=? 102)%N then Some (n - 87)%N
  else if (65 <=? n)%N && (n <=? 70)%N then Some (n - 55)%N
  else None.

(** QuoteJSONString, one character: the two-character escapes, [\u00XX]
    for the other control characters, the character itself otherwise. *)
Definition quote_char (c : ascii) : string :=
  if Ascii.eqb c dquote then String backslash (String dquote EmptyString)
  else if Ascii.eqb c backslash then String backslash (String backslash EmptyString)
  else if Ascii.eqb c "008" then String backslash "b"
  else if Ascii.eqb c "012" then String backslash "f"
  else if Ascii.eqb c "010" then String backslash "n"
  else if Ascii.eqb c "013" then String backslash "r"
  else if Ascii.eqb c "009" then String backslash "t"
  else if (N_of_ascii c <? 32)%N then
    String backslash
      (String "u" (String "0" (String "0"
        (String (hex_char (N_of_ascii c / 16)%N)
          (String (hex_char (N_of_ascii c mod 16)%N) EmptyString)))))
  else String c EmptyString.

Fixpoint quote_body (s : string) : string :=
  match s with
  | EmptyString => EmptyString
  | String c r => quote_char c ++ quote_body r
  end.

(** QuoteJSONString. *)
Definition quote (s : string) : string :=
  String dquote (quote_body s ++ String dquote EmptyString).

(** JSON white space: space, tab, line feed, carriage return. *)
Definition is_ws (c : ascii) : bool :=
  Ascii.eqb c " " || Ascii.eqb c "009" || Ascii.eqb c "010" || Ascii.eqb c "013".

Fixpoint skip_ws (s : string) : string :=
  match s with
  | String c r => if is_ws c then skip_ws r else s
  | EmptyString => s
  end.

(** String.prototype.split with a one-character separator: the pieces
    between the occurrences of [sep]; never empty. *)
Fixpoint split (sep : ascii) (s : string) : list string :=
  match s with
  | EmptyString => [EmptyString]
  | String c r =>
      if Ascii.eqb c sep then EmptyString :: split sep r
      else match split sep r with
           | piece :: more => String c piece :: more
           | [] => [String c EmptyString]
           end
  end.

(** String.prototype.replace with a one-character string pattern and the
    empty replacement: only the first occurrence is removed. *)
Fixpoint remove_first (c : ascii) (s : string) : string :=
  match s with
  | EmptyString => EmptyString
  | String a r => if Ascii.eqb a c then r else String a (remove_first c r)
  end.

Fixpoint contains (c : ascii) (s : string) : bool :=
  match s with
  | EmptyString => false
  | String a r => Ascii.eqb a c || contains c r
  end.

End Text.

(* ================================================================== *)
(** ** Js: the fragment of JavaScript the program runs on              *)
(* ================================================================== *)

Module Js.
Import Text.

(** JavaScript values.  Numbers are the integers (the program stores
    process ids); [VFunction name] is the built-in function found under
    [name] in [Object.prototype]. *)
Unset Elimination Schemes.
Inductive value : Type :=
| VUndefined
| VNull
| VBool (b : bool)
| VNum (z : Z)
| VStr (s : string)
| VArr (elems : list value)
| VObj (props : list (string * value))
| VFunction (name : string).
Set Elimination Schemes.

(** Exceptions, by what raised them; the text of [err.message] belongs to
    the runtime and is supplied by the environment. *)
Inductive exn : Type :=
| JsonSyntaxError
| NullDereference (key : string)
| NotAnObject
| NotAFunction (key : string)
| InvalidPid (pid : value)
| KillFailed (pid : Z).

(** Outcome of an evaluation.  [Unmodelled] marks behaviour of the
    language that this fragment does not describe (fractional numbers,
    escapes above U+007F, property lookup on primitives under a computed
    key, ...); it is never a statement about the program. *)
Inductive result (A : Type) : Type :=
| Ok (a : A)
| Throw (e : exn)
| Unmodelled.
Arguments Throw {A} e.
Arguments Unmodelled {A}.

Definition rbind {A B} (r : result A) (k : A -> result B) : result B :=
  match r with
  | Ok a => k a
  | Throw e => Throw e
  | Unmodelled => Unmodelled
  end.

(** Number.isSafeInteger. *)
Definition safe_integer (z : Z) : bool :=
  (-9007199254740992 <? z)%Z && (z <? 9007199254740992)%Z.

(** *** Ordinary objects: own properties in property order *)

(** An array index is the canonical decimal numeral of an integer in
    [0, 2^32 - 2]. *)
Definition array_index (k : string) : option N :=
  match k with
  | EmptyString => None
  | String c _ =>
      if is_digit c then
        match read_digits k 0 with
        | (n, EmptyString) =>
            if (n <=? 4294967294)%N && String.eqb (string_of_N n) k
            then Some n else None
        | _ => None
        end
      else None
  end.

Section OwnProperties.
Variable A : Type.

Fixpoint lookup (k : string) (ps : list (string * A)) : option A :=
  match ps with
  | [] => None
  | (k', v) :: t => if String.eqb k' k then Some v else lookup k t
  end.

Fixpoint replace_value (k : string) (v : A) (ps : list (string * A))
  : list (string * A) :=
  match ps with
  | [] => []
  | (k', v') :: t =>
      if String.eqb k' k then (k', v) :: t else (k', v') :: replace_value k v t
  end.

(** A new array-index key goes before the first key that is a larger
    index or not an index at all. *)
Fixpoint insert_index (n : N) (k : string) (v : A)
  (ps : list (string * A)) : list (string * A) :=
  match ps with
  | [] => [(k, v)]
  | (k', v') :: t =>
      match array_index k' with
      | Some m => if (m <? n)%N then (k', v') :: insert_index n k v t
                  else (k, v) :: ps
      | None => (k, v) :: ps
      end
  end.

(** CreateDataProperty on an ordinary object: an existing key keeps its
    place; a new key is listed by OrdinaryOwnPropertyKeys among the array
    indices in ascending order, or after every other key. *)
Definition define_property (ps : list (string * A)) (k : string) (v : A)
  : list (string * A) :=
  match lookup k ps with
  | Some _ => replace_value k v ps
  | None =>
      match array_index k with
      | Some n => insert_index n k v ps
      | None => ps ++ [(k, v)]
      end
  end.

(** The object built from a sequence of definitions, as an object
    literal or [JSON.parse] does. *)
Definition object_of_entries (es : list (string * A)) : list (string * A) :=
  fold_left (fun ps kv => define_property ps (fst kv) (snd kv)) es [].

Fixpoint delete_property (k : string) (ps : list (string * A))
  : list (string * A) :=
  match ps with
  | [] => []
  | (k', v) :: t =>
      if String.eqb k' k then t else (k', v) :: delete_property k t
  end.
End OwnProperties.

(** The same keys with the values mapped by [f]. *)
Definition map_values (A B : Type) (f : A -> B) (ps : list (string * A))
  : list (string * B) :=
  map (fun e => (fst e, f (snd e))) ps.

(** The function-valued properties of [Object.prototype]. *)
Definition object_prototype_functions : list string :=
  [ "constructor"; "__defineGetter__"; "__defineSetter__"; "hasOwnProperty";
    "__lookupGetter__"; "__lookupSetter__"; "isPrototypeOf";
    "propertyIsEnumerable"; "toString"; "valueOf"; "toLocaleString" ].

Definition mem (k : string) (l : list string) : bool :=
  existsb (String.eqb k) l.

(** What an object created by [JSON.parse] or an object literal inherits
    under key [k].  The accessor [__proto__] yields [Object.prototype]
    itself, which has no enumerable property. *)
Definition inherited (k : string) : option value :=
  if String.eqb k "__proto__" then Some (VObj [])
  else if mem k object_prototype_functions then Some (VFunction k)
  else None.

(** The field names the program reads with a fixed key; none of them is
    a property of a primitive wrapper, of an array or of a function. *)
Definition record_fields : list string :=
  [ "pid"; "startTime"; "info"; "description"; "version"; "command"; "args" ].

(** [o[k]] and [o.k]. *)
Definition get_property (o : value) (k : string) : result value :=
  match o with
  | VObj ps =>
      Ok (match lookup k ps with
          | Some v => v
          | None => match inherited k with
                    | Some v => v
                    | None => VUndefined
                    end
          end)
  | VUndefined | VNull => Throw (NullDereference k)
  | _ => if mem k record_fields then Ok VUndefined else Unmodelled
  end.

(** [o[k] = v].  Each command holds a single reference to the registry
    object, so the updated object is returned instead of mutated.  With no
    own property [__proto__] the assignment would run the inherited
    setter and replace the prototype. *)
Definition set_property (o : value) (k : string) (v : value) : result value :=
  match o with
  | VObj ps =>
      match lookup k ps with
      | Some _ => Ok (VObj (replace_value k v ps))
      | None =>
          if String.eqb k "__proto__" then Unmodelled
          else Ok (VObj (define_property ps k v))
      end
  | VUndefined | VNull => Throw (NullDereference k)
  | _ => Unmodelled
  end.

(** [delete o[k]]. *)
Definition delete_own (o : value) (k : string) : result value :=
  match o with
  | VObj ps => Ok (VObj (delete_property k ps))
  | _ => Unmodelled
  end.

(** Object.keys. *)
Definition object_keys (o : value) : result (list string) :=
  match o with
  | VObj ps => Ok (map fst ps)
  | VUndefined | VNull => Throw NotAnObject
  | _ => Unmodelled
  end.

(** ToBoolean. *)
Definition truthy (v : value) : bool :=
  match v with
  | VUndefined | VNull => false
  | VBool b => b
  | VNum z => negb (z =? 0)%Z
  | VStr s => negb (String.eqb s EmptyString)
  | VArr _ | VObj _ | VFunction _ => true
  end.

(** ToString, as a template literal applies it, on primitives. *)
Definition to_string (v : value) : result string :=
  match v with
  | VUndefined => Ok "undefined"
  | VNull => Ok "null"
  | VBool true => Ok "true"
  | VBool false => Ok "false"
  | VNum z => Ok (string_of_Z z)
  | VStr s => Ok s
  | VArr _ | VObj _ | VFunction _ => Unmodelled
  end.

(** *** JSON.stringify (value, null, 2) *)

Definition block (opening closing : string) (lvl : nat) (parts : list string)
  : string :=
  match parts with
  | [] => opening ++ closing
  | _ =>
      opening ++ nl ++ spaces (2 * S lvl)
        ++ join ("," ++ nl ++ spaces (2 * S lvl)) parts
        ++ nl ++ spaces (2 * lvl) ++ closing
  end.

(** SerializeJSONProperty at nesting depth [lvl]; [None] is the
    [undefined] result.  An array element that has none is written
    [null]; an object member that has none is left out. *)
Fixpoint serialize (lvl : nat) (v : value) : option string :=
  match v with
  | VUndefined | VFunction _ => None
  | VNull => Some "null"
  | VBool true => Some "true"
  | VBool false => Some "false"
  | VNum z => Some (string_of_Z z)
  | VStr s => Some (quote s)
  | VArr elems =>
      Some (block "[" "]" lvl
              (map (fun x => match serialize (S lvl) x with
                             | Some s => s
                             | None => "null"
                             end) elems))
  | VObj props =>
      Some (block "{" "}" lvl
              (flat_map (fun '(k, x) => match serialize (S lvl) x with
                                        | Some s => [quote k ++ ": " ++ s]
                                        | None => []
                                        end) props))
  end.

(** The text of an array element and of an object member. *)
Definition item_text (lvl : nat) (x : value) : string :=
  match serialize lvl x with
  | Some s => s
  | None => "null"
  end.

Definition member_text (lvl : nat) (kv : string * value) : string :=
  quote (fst kv) ++ ": " ++ item_text lvl (snd kv).

Definition JSON_stringify (v : value) : option string := serialize 0 v.

(** *** JSON.parse *)

(** The characters of a string literal after its opening quote, up to
    the closing quote. *)
Fixpoint parse_string (s : string) : result (string * string) :=
  match s with
  | EmptyString => Throw JsonSyntaxError
  | String c r =>
      if Ascii.eqb c dquote then Ok (EmptyString, r)
      else if Ascii.eqb c backslash then
        match r with
        | EmptyString => Throw JsonSyntaxError
        | String e r1 =>
            let continue (ch : ascii) (rest : string) :=
              match parse_string rest with
              | Ok (body, rest') => Ok (String ch body, rest')
              | Throw x => Throw x
              | Unmodelled => Unmodelled
              end in
            if Ascii.eqb e dquote then continue dquote r1
            else if Ascii.eqb e backslash then continue backslash r1
            else if Ascii.eqb e "/" then continue "/"%char r1
            else if Ascii.eqb e "b" then continue "008"%char r1
            else if Ascii.eqb e "f" then continue "012"%char r1
            else if Ascii.eqb e "n" then continue "010"%char r1
            else if Ascii.eqb e "r" then continue "013"%char r1
            else if Ascii.eqb e "t" then continue "009"%char r1
            else if Ascii.eqb e "u" then
              match r1 with
              | String h1 (String h2 (String h3 (String h4 r2))) =>
                  match hex_val h1, hex_val h2, hex_val h3, hex_val h4 with
                  | Some a, Some b, Some c', Some d =>
                      let code := (((a * 16 + b) * 16 + c') * 16 + d)%N in
                      if (code <? 128)%N then continue (ascii_of_N code) r2
                      else Unmodelled
                  | _, _, _, _ => Throw JsonSyntaxError
                  end
              | _ => Throw JsonSyntaxError
              end
            else Throw JsonSyntaxError
        end
      else if (N_of_ascii c <? 32)%N then Throw JsonSyntaxError
      else
        match parse_string r with
        | Ok (body, rest') => Ok (String c body, rest')
        | Throw x => Throw x
        | Unmodelled => Unmodelled
        end
  end.

(** Does the text go on with a fraction or an exponent? *)
Definition continues_number (s : string) : bool :=
  match s with
  | String c _ => Ascii.eqb c "." || Ascii.eqb c "e" || Ascii.eqb c "E"
  | EmptyString => false
  end.

(** The integer part of a number: a single zero, or a non-zero digit
    followed by digits. *)
Definition parse_int (s : string) : result (N * string) :=
  match s with
  | String c r =>
      if Ascii.eqb c "0" then
        match r with
        | String d _ => if is_digit d then Throw JsonSyntaxError else Ok (0%N, r)
        | EmptyString => Ok (0%N, r)
        end
      else if is_digit c then Ok (read_digits s 0)
      else Throw JsonSyntaxError
  | EmptyString => Throw JsonSyntaxError
  end.

Definition parse_number (s : string) : result (value * string) :=
  let '(negative, s1) :=
    match s with
    | String c r => if Ascii.eqb c "-" then (true, r) else (false, s)
    | EmptyString => (false, s)
    end in
  rbind (parse_int s1) (fun '(n, rest) =>
    if continues_number rest then Unmodelled
    else
      let z := if negative then (- Z.of_N n)%Z else Z.of_N n in
      if negative && (n =? 0)%N then Unmodelled
      else if safe_integer z then Ok (VNum z, rest)
      else Unmodelled).

Fixpoint strip_prefix (p s : string) : option string :=
  match p, s with
  | EmptyString, _ => Some s
  | String a p', String b s' => if Ascii.eqb a b then strip_prefix p' s' else None
  | String _ _, EmptyString => None
  end.

Definition parse_literal (word : string) (v : value) (s : string)
  : result (value * string) :=
  match strip_prefix word s with
  | Some rest => Ok (v, rest)
  | None => Throw JsonSyntaxError
  end.

(** Skip white space and consume the character [c], if it comes next. *)
Definition expect (c : ascii) (s : string) : option string :=
  match skip_ws s with
  | String a r => if Ascii.eqb a c then Some r else None
  | EmptyString => None
  end.

(** A JSON value, the elements of an array after its opening bracket,
    and the members of an object after its opening brace.  Each call
    consumes a character, so a fuel of the length of the text is never
    exhausted on it. *)
Fixpoint parse_value (fuel : nat) (s : string) : result (value * string) :=
  match fuel with
  | O => Unmodelled
  | S f =>
      match skip_ws s with
      | EmptyString => Throw JsonSyntaxError
      | String c r =>
          if Ascii.eqb c "{" then
            match expect "}" r with
            | Some r' => Ok (VObj [], r')
            | None =>
                rbind (parse_members f r) (fun '(ms, rest) =>
                  Ok (VObj (object_of_entries ms), rest))
            end
          else if Ascii.eqb c "[" then
            match expect "]" r with
            | Some r' => Ok (VArr [], r')
            | None =>
                rbind (parse_elements f r) (fun '(vs, rest) =>
                  Ok (VArr vs, rest))
            end
          else if Ascii.eqb c dquote then
            rbind (parse_string r) (fun '(str, rest) => Ok (VStr str, rest))
          else if Ascii.eqb c "t" then parse_literal "true" (VBool true) (String c r)
          else if Ascii.eqb c "f" then parse_literal "false" (VBool false) (String c r)
          else if Ascii.eqb c "n" then parse_literal "null" VNull (String c r)
          else if Ascii.eqb c "-" || is_digit c then parse_number (String c r)
          else Throw JsonSyntaxError
      end
  end
with parse_elements (fuel : nat) (s : string) : result (list value * string) :=
  match fuel with
  | O => Unmodelled
  | S f =>
      rbind (parse_value f s) (fun '(v, r) =>
        match expect "," r with
        | Some r' =>
            rbind (parse_elements f r') (fun '(vs, rest) => Ok (v :: vs, rest))
        | None =>
            match expect "]" r with
            | Some r' => Ok ([v], r')
            | None => Throw JsonSyntaxError
            end
        end)
  end
with parse_members (fuel : nat) (s : string)
  : result (list (string * value) * string) :=
  match fuel with
  | O => Unmodelled
  | S f =>
      match expect dquote s with
      | None => Throw JsonSyntaxError
      | Some r =>
          rbind (parse_string r) (fun '(k, r1) =>
            match expect ":" r1 with
            | None => Throw JsonSyntaxError
            | Some r2 =>
                rbind (parse_value f r2) (fun '(v, r3) =>
                  match expect "," r3 with
                  | Some r4 =>
                      rbind (parse_members f r4) (fun '(ms, rest) =>
                        Ok ((k, v) :: ms, rest))
                  | None =>
                      match expect "}" r3 with
                      | Some r4 => Ok ([(k, v)], r4)
                      | None => Throw JsonSyntaxError
                      end
                  end)
            end)
      end
  end.

Definition JSON_parse (text : string) : result value :=
  rbind (parse_value (S (String.length text)) text) (fun '(v, rest) =>
    match skip_ws rest with
    | EmptyString => Ok v
    | _ => Throw JsonSyntaxError
    end).

(** *** Objects as the runtime lists them, and JSON values *)

(** [a] comes before [b] in the key order of an object: array indices in
    ascending order first, then the other keys (in creation order). *)
Definition key_before (a b : string) : bool :=
  match array_index a, array_index b with
  | Some m, Some n => (m <? n)%N
  | Some _, None => true
  | None, None => true
  | None, Some _ => false
  end.

(** The keys of an object: pairwise distinct and in key order.  Every
    object of the runtime satisfies it; it is the representation
    invariant of [VObj]. *)
Fixpoint property_order (ks : list string) : bool :=
  match ks with
  | [] => true
  | k :: t => forallb (key_before k) t && negb (mem k t) && property_order t
  end.

(** The values that survive [JSON.stringify]: no [undefined], no
    function, safe integers, objects in key order. *)
Fixpoint is_json (v : value) : bool :=
  match v with
  | VUndefined | VFunction _ => false
  | VNull | VBool _ | VStr _ => true
  | VNum z => safe_integer z
  | VArr elems => forallb is_json elems
  | VObj props =>
      property_order (map fst props)
      && forallb (fun '(_, x) => is_json x) props
  end.

(** Number of nodes, counting each element twice: the fuel [parse_value]
    needs on the text of the value. *)
Fixpoint size (v : value) : nat :=
  match v with
  | VArr elems => S (list_sum (map (fun x => S (size x)) elems))
  | VObj props => S (list_sum (map (fun '(_, x) => S (size x)) props))
  | _ => 1
  end.

(** The characters a JSON value can start with. *)
Definition value_start (c : ascii) : bool :=
  Ascii.eqb c "{" || Ascii.eqb c "[" || Ascii.eqb c dquote || Ascii.eqb c "t"
  || Ascii.eqb c "f" || Ascii.eqb c "n" || Ascii.eqb c "-" || is_digit c.

(** The text after a number must not go on as a number. *)
Definition number_end (rest : string) : bool :=
  match rest with
  | EmptyString => true
  | String c _ => negb (is_digit c) && negb (continues_number rest)
  end.

(** The text of [v] at depth [lvl] is read back as [v], whatever follows
    it. *)
Definition reads_back (lvl : nat) (v : value) : Prop :=
  (exists c r, item_text lvl v = String c r /\ value_start c = true)
  /\ serialize lvl v = Some (item_text lvl v)
  /\ size v <= String.length (item_text lvl v)
  /\ forall fuel rest,
       size v <= fuel -> number_end rest = true ->
       parse_value fuel (item_text lvl v ++ rest) = Ok (v, rest).

End Js.

(* ================================================================== *)
(** ** Mcpk: the functions and command actions of [main.ts]            *)
(* ================================================================== *)

Module Mcpk.
Import Text Js.

(** What a command does to the outside, in order. *)
Inductive event : Type :=
| ConsoleLog (text : string)
| ConsoleError (text : string)
| ReadFile
| WriteFile (content : string)
| Spawn (command args : value)
| Kill (pid : Z).

(** The registry file [RUNNING_SERVERS_FILE] and the effects so far.
    Reading and writing the file themselves are assumed to succeed. *)
Record world : Type := World { file : string; trace : list event }.

(** What the operating system and the runtime answer during one command. *)
Record env : Type := Env {
  spawn_pid : option Z;            (* child.pid; undefined when the spawn failed *)
  now_iso : string;                (* new Date().toISOString() *)
  kill_succeeds : Z -> bool;       (* does process.kill deliver the signal? *)
  error_message : exn -> string;   (* err.message *)
  locale_string : value -> string  (* new Date(v).toLocaleString() *)
}.

(** Computations: state, trace and exceptions.  The world reached when an
    exception is thrown is kept, as [try]/[catch] observes it. *)
Definition M (A : Type) : Type := world -> result A * world.

Definition ret {A} (a : A) : M A := fun w => (Ok a, w).

Definition bind {A B} (m : M A) (k : A -> M B) : M B :=
  fun w =>
    match m w with
    | (Ok a, w') => k a w'
    | (Throw e, w') => (Throw e, w')
    | (Unmodelled, w') => (Unmodelled, w')
    end.

Notation "x <- m ;; k" := (bind m (fun x => k))
  (at level 61, m at next level, right associativity).
Notation "m ;;; k" := (bind m (fun _ => k))
  (at level 61, right associativity).

Definition lift {A} (r : result A) : M A := fun w => (r, w).

Definition emit (e : event) : M unit :=
  fun w => (Ok tt, World (file w) (trace w ++ [e])).

Definition console_log (text : string) : M unit := emit (ConsoleLog text).
Definition console_error (text : string) : M unit := emit (ConsoleError text).

Definition try_catch {A} (body : M A) (handler : exn -> M A) : M A :=
  fun w =>
    match body w with
    | (Throw e, w') => handler e w'
    | other => other
    end.

Fixpoint for_each {A} (l : list A) (f : A -> M unit) : M unit :=
  match l with
  | [] => ret tt
  | x :: t => f x ;;; for_each t f
  end.

Definition REGISTRY_URL : string := "https://registry.mcpk.io".

(** Lines 21-23: the registry file is created as the empty object when
    it does not exist. *)
Definition initialize (existing : option string) : result world :=
  match existing with
  | Some content => Ok (World content [])
  | None =>
      match JSON_stringify (VObj []) with
      | Some text => Ok (World text [WriteFile text])
      | None => Unmodelled
      end
  end.

Definition getRunningServers : M value :=
  fun w => (JSON_parse (file w), World (file w) (trace w ++ [ReadFile])).

(** [fs.writeFileSync] is only ever handed the text of an object. *)
Definition saveRunningServers (servers : value) : M unit :=
  match JSON_stringify servers with
  | Some text => fun w => (Ok tt, World text (trace w ++ [WriteFile text]))
  | None => lift Unmodelled
  end.

(** The second element of the destructuring [[scope, name]]. *)
Definition second (parts : list string) : value :=
  match nth_error parts 1 with
  | Some s => VStr s
  | None => VUndefined
  end.

(** The keys of the object literals below are distinct and none is an
    array index: their properties are listed in the order written. *)
Definition fetchServerInfo (serverName : string) : M value :=
  console_log ("Fetching information for " ++ serverName ++ " from "
               ++ REGISTRY_URL ++ "...") ;;;
  let name := second (split "/" serverName) in
  name_text <- lift (to_string name) ;;
  ret (VObj [ ("name", VStr serverName);
              ("command", VStr "npx");
              ("args", VArr [VStr "-y"; VStr serverName]);
              ("description", VStr ("MCP Server for " ++ name_text));
              ("version", VStr "1.0.0") ]).

(** [serverInfo.args.map (arg => `      - ${arg}`)]. *)
Fixpoint bullet_items (l : list value) : result (list string) :=
  match l with
  | [] => Ok []
  | x :: t =>
      rbind (to_string x) (fun s =>
        rbind (bullet_items t) (fun rest => Ok (("      - " ++ s) :: rest)))
  end.

Definition map_bullets (args : value) : result (list string) :=
  match args with
  | VArr l => bullet_items l
  | VUndefined | VNull => Throw (NullDereference "map")
  | _ => Throw (NotAFunction "map")
  end.

(** The object of the JSON dialect. *)
Definition claude_object (key : string) (command args : value) : value :=
  VObj [ ("mcpServers",
          VObj (object_of_entries
                  [ (key, VObj [("command", command); ("args", args)]) ])) ].

Definition generateConfigExample (serverName : string) (serverInfo : value)
  : M (string * string) :=
  let key := remove_first "@" serverName in
  command <- lift (get_property serverInfo "command") ;;
  args <- lift (get_property serverInfo "args") ;;
  claudeConfig <-
    lift (match JSON_stringify (claude_object key command args) with
          | Some text => Ok text
          | None => Unmodelled
          end) ;;
  command_text <- lift (to_string command) ;;
  items <- lift (map_bullets args) ;;
  let libreConfig :=
    "mcpServers:" ++ nl ++ "  " ++ key ++ ":" ++ nl
      ++ "    command: " ++ command_text ++ nl
      ++ "    args:" ++ nl ++ join nl items in
  ret (claudeConfig, libreConfig).

(** [spawn (command, args, { detached: true, stdio: 'ignore' })] and the
    pid of the child. *)
Definition spawn (E : env) (command args : value) : M value :=
  emit (Spawn command args) ;;;
  ret (match spawn_pid E with
       | Some p => VNum p
       | None => VUndefined
       end).

(** What [process.kill (pid)] answers: a pid that is not a 32-bit integer
    is refused before any signal is sent; otherwise the operating system
    decides. *)
Definition signal_outcome (E : env) (pid : value) : result unit :=
  match pid with
  | VNum p =>
      if (-2147483648 <=? p)%Z && (p <=? 2147483647)%Z then
        if kill_succeeds E p then Ok tt else Throw (KillFailed p)
      else Throw (InvalidPid pid)
  | VUndefined | VNull => Throw (InvalidPid pid)
  | _ => Unmodelled
  end.

(** The signal events of [process.kill (pid)]. *)
Definition signal_events (pid : value) : list event :=
  match pid with
  | VNum p =>
      if (-2147483648 <=? p)%Z && (p <=? 2147483647)%Z then [Kill p] else []
  | _ => []
  end.

Definition process_kill (E : env) (pid : value) : M unit :=
  fun w => (signal_outcome E pid,
            World (file w) (trace w ++ signal_events pid)).

(** [new Date (v).toLocaleString ()] *)
Definition date_locale (E : env) (v : value) : result string :=
  match v with
  | VArr _ | VObj _ | VFunction _ => Unmodelled
  | _ => Ok (locale_string E v)
  end.

(** *** The command actions

    [cmd_start], [cmd_stop], [cmd_status] and [cmd_list] are the anonymous
    actions registered for the commands start, stop, status and list. *)

Definition cmd_start (E : env) (serverName : string) : M unit :=
  servers <- getRunningServers ;;
  existing <- lift (get_property servers serverName) ;;
  if truthy existing then
    pid <- lift (get_property existing "pid") ;;
    pid_text <- lift (to_string pid) ;;
    console_log ("Server " ++ serverName ++ " is already running (PID: "
                 ++ pid_text ++ ")")
  else
    serverInfo <- fetchServerInfo serverName ;;
    console_log ("Starting " ++ serverName ++ "...") ;;;
    command <- lift (get_property serverInfo "command") ;;
    args <- lift (get_property serverInfo "args") ;;
    child_pid <- spawn E command args ;;
    let record :=
      VObj [ ("pid", child_pid);
             ("startTime", VStr (now_iso E));
             ("info", serverInfo) ] in
    servers' <- lift (set_property servers serverName record) ;;
    saveRunningServers servers' ;;;
    pid_text <- lift (to_string child_pid) ;;
    console_log ("Server " ++ serverName ++ " started successfully (PID: "
                 ++ pid_text ++ ")").

Definition cmd_stop (E : env) (serverName : string) : M unit :=
  servers <- getRunningServers ;;
  existing <- lift (get_property servers serverName) ;;
  if negb (truthy existing) then
    console_log ("Server " ++ serverName ++ " is not running")
  else
    try_catch
      (pid <- lift (get_property existing "pid") ;;
       process_kill E pid ;;;
       servers' <- lift (delete_own servers serverName) ;;
       saveRunningServers servers' ;;;
       console_log ("Server " ++ serverName ++ " stopped successfully"))
      (fun err =>
         console_error ("Failed to stop server " ++ serverName ++ ": "
                        ++ error_message E err)).

Definition cmd_status (serverName : string) : M unit :=
  servers <- getRunningServers ;;
  server <- lift (get_property servers serverName) ;;
  if negb (truthy server) then
    console_log ("Server " ++ serverName ++ " is not running")
  else
    console_log ("Server: " ++ serverName) ;;;
    console_log "Status: Running" ;;;
    pid <- lift (get_property server "pid") ;;
    pid_text <- lift (to_string pid) ;;
    console_log ("PID: " ++ pid_text) ;;;
    startTime <- lift (get_property server "startTime") ;;
    start_text <- lift (to_string startTime) ;;
    console_log ("Started: " ++ start_text) ;;;
    info <- lift (get_property server "info") ;;
    description <- lift (get_property info "description") ;;
    description_text <- lift (to_string description) ;;
    console_log ("Description: " ++ description_text) ;;;
    version <- lift (get_property info "version") ;;
    version_text <- lift (to_string version) ;;
    console_log ("Version: " ++ version_text) ;;;
    configs <- generateConfigExample serverName info ;;
    console_log (nl ++ "To configure in Claude Desktop:") ;;;
    console_log "------------------------------" ;;;
    console_log "Edit your claude_desktop_config.json:" ;;;
    console_log (fst configs) ;;;
    console_log (nl ++ "To configure in LibreChat:") ;;;
    console_log "-------------------------" ;;;
    console_log "Add to your LibreChat YAML configuration:" ;;;
    console_log (snd configs).

Definition list_line (E : env) (servers : value) (name : string) : M unit :=
  server <- lift (get_property servers name) ;;
  pid <- lift (get_property server "pid") ;;
  pid_text <- lift (to_string pid) ;;
  startTime <- lift (get_property server "startTime") ;;
  started <- lift (date_locale E startTime) ;;
  console_log (name ++ " (PID: " ++ pid_text ++ ", Started: " ++ started ++ ")").

Definition cmd_list (E : env) : M unit :=
  servers <- getRunningServers ;;
  serverNames <- lift (object_keys servers) ;;
  if (List.length serverNames =? 0)%nat then
    console_log "No MCP servers are currently running"
  else
    console_log "Running MCP Servers:" ;;;
    console_log "-------------------" ;;;
    for_each serverNames (list_line E servers).

End Mcpk.

(* ================================================================== *)
(** ** Registry: the data model of the registry file                   *)
(* ================================================================== *)

Module Registry.
Import Text Js Mcpk.

(** The descriptor [fetchServerInfo] returns. *)
Record ServerInfo : Type := ServerInfoOf {
  name : string;
  command : string;
  args : list string;
  description : string;
  version : string
}.

(** One entry of the registry.  [pid] is absent when the entry was
    written after a failed spawn ([JSON.stringify] drops the undefined
    [pid]). *)
Record ServerRecord : Type := ServerRecordOf {
  pid : option Z;
  startTime : string;
  info : ServerInfo
}.

(** The registry: server names and their records, in key order. *)
Definition registry : Type := list (string * ServerRecord).

Definition info_value (i : ServerInfo) : value :=
  VObj [ ("name", VStr (name i));
         ("command", VStr (command i));
         ("args", VArr (map VStr (args i)));
         ("description", VStr (description i));
         ("version", VStr (version i)) ].

Definition record_value (r : ServerRecord) : value :=
  VObj (match pid r with
        | Some p => [("pid", VNum p)]
        | None => []
        end
        ++ [ ("startTime", VStr (startTime r)); ("info", info_value (info r)) ]).

(** The object [getRunningServers] returns for a registry. *)
Definition registry_value (reg : registry) : value :=
  VObj (map_values record_value reg).

Definition names (reg : registry) : list string := map fst reg.

(** [server.pid] *)
Definition pid_value (r : ServerRecord) : value :=
  match pid r with
  | Some p => VNum p
  | None => VUndefined
  end.

(** [`${server.pid}`] *)
Definition pid_text (r : ServerRecord) : string :=
  match pid r with
  | Some p => string_of_Z p
  | None => "undefined"
  end.

Definition pid_safe (r : ServerRecord) : bool :=
  match pid r with
  | Some p => safe_integer p
  | None => true
  end.

(** A registry as a JavaScript object can hold it: names in key order
    and process ids that are numbers of the runtime. *)
Definition registry_wf (reg : registry) : bool :=
  property_order (names reg) && forallb (fun e => pid_safe (snd e)) reg.

(** A registry as the commands write it: moreover no name is a property
    of [Object.prototype] ([cmd_start] never records one). *)
Definition registry_ok (reg : registry) : bool :=
  registry_wf reg
  && forallb (fun k => match inherited k with None => true | Some _ => false end)
       (names reg).

(** The registry file holds [reg]. *)
Definition holds (w : world) (reg : registry) : Prop :=
  JSON_parse (file w) = Ok (registry_value reg).

(** The pid of a spawned child is a number of the runtime. *)
Definition env_ok (E : env) : bool :=
  match spawn_pid E with
  | Some p => safe_integer p
  | None => true
  end.

(** The worlds the tool reaches: the registry file is created empty, then
    commands run one after the other, each in its own environment. *)
Inductive reachable : world -> Prop :=
| reach_created : reachable (World "{}" [WriteFile "{}"])
| reach_start (E : env) (serverName : string) (w : world) :
    env_ok E = true -> reachable w ->
    reachable (snd (cmd_start E serverName w))
| reach_stop (E : env) (serverName : string) (w : world) :
    reachable w -> reachable (snd (cmd_stop E serverName w))
| reach_status (serverName : string) (w : world) :
    reachable w -> reachable (snd (cmd_status serverName w))
| reach_list (E : env) (w : world) :
    reachable w -> reachable (snd (cmd_list E w)).

(** The descriptor of [serverName], as a record. *)
Definition fetched_info (serverName : string) : ServerInfo :=
  {| name := serverName;
     command := "npx";
     args := ["-y"; serverName];
     description :=
       "MCP Server for "
         ++ match nth_error (split "/" serverName) 1 with
            | Some s => s
            | None => "undefined"
            end;
     version := "1.0.0" |}.

(** The line [cmd_list] prints for an entry. *)
Definition list_line_text (E : env) (e : string * ServerRecord) : string :=
  fst e ++ " (PID: " ++ pid_text (snd e) ++ ", Started: "
    ++ locale_string E (VStr (startTime (snd e))) ++ ")".

(** What [cmd_list] prints for a registry. *)
Definition list_output (E : env) (reg : registry) : list event :=
  match reg with
  | [] => [ConsoleLog "No MCP servers are currently running"]
  | _ =>
      ConsoleLog "Running MCP Servers:"
      :: ConsoleLog "-------------------"
      :: map (fun e => ConsoleLog (list_line_text E e)) reg
  end.

(** The second dialect printed by [cmd_status]. *)
Definition libre_text (key : string) (i : ServerInfo) : string :=
  "mcpServers:" ++ nl ++ "  " ++ key ++ ":" ++ nl
    ++ "    command: " ++ command i ++ nl
    ++ "    args:" ++ nl
    ++ join nl (map (fun a => "      - " ++ a) (args i)).

(** Everything [cmd_status] prints for a running server, given the text
    of the JSON snippet. *)
Definition status_lines (serverName : string) (r : ServerRecord)
  (snippet : string) : list event :=
  [ ConsoleLog ("Server: " ++ serverName);
    ConsoleLog "Status: Running";
    ConsoleLog ("PID: " ++ pid_text r);
    ConsoleLog ("Started: " ++ startTime r);
    ConsoleLog ("Description: " ++ description (info r));
    ConsoleLog ("Version: " ++ version (info r));
    ConsoleLog (nl ++ "To configure in Claude Desktop:");
    ConsoleLog "------------------------------";
    ConsoleLog "Edit your claude_desktop_config.json:";
    ConsoleLog snippet;
    ConsoleLog (nl ++ "To configure in LibreChat:");
    ConsoleLog "-------------------------";
    ConsoleLog "Add to your LibreChat YAML configuration:";
    ConsoleLog (libre_text (remove_first "@" serverName) (info r)) ].

(** The object of the JSON dialect as the specification writes it:
    [{ mcpServers: { key: { command, args } } }]. *)
Definition config_object (key : string) (i : ServerInfo) : value :=
  VObj [ ("mcpServers",
          VObj [ (key, VObj [ ("command", VStr (command i));
                              ("args", VArr (map VStr (args i))) ]) ]) ].

(** The server name without any at sign, as the specification words the
    key of the snippet. *)
Fixpoint without_at (s : string) : string :=
  match s with
  | EmptyString => EmptyString
  | String c r => if Ascii.eqb c "@" then without_at r else String c (without_at r)
  end.

Definition is_write (e : event) : bool :=
  match e with
  | WriteFile _ => true
  | _ => false
  end.

Definition is_console_log (e : event) : bool :=
  match e with
  | ConsoleLog _ => true
  | _ => false
  end.

(** The console lines of a trace. *)
Definition printed (tr : list event) : list event := filter is_console_log tr.

(** *** A concrete environment and registry *)

Definition demo_env : env :=
  {| spawn_pid := Some 4242%Z;
     now_iso := "2024-05-01T10:00:00.000Z";
     kill_succeeds := fun p => (p =? 4242)%Z;
     error_message := fun e =>
       match e with
       | KillFailed _ => "kill ESRCH"
       | InvalidPid _ => "The pid argument must be of type number"
       | _ => "error"
       end;
     locale_string := fun v =>
       match v with
       | VStr s => "on " ++ s
       | _ => "Invalid Date"
       end |}.

Definition demo_record (serverName : string) (p : Z) : ServerRecord :=
  {| pid := Some p;
     startTime := "2024-05-01T10:00:00.000Z";
     info := fetched_info serverName |}.

Definition demo_registry : registry :=
  [ ("7", demo_record "7" 311%Z);
    ("alice/demo", demo_record "alice/demo" 4242%Z);
    ("@acme/server@1.2.3", demo_record "@acme/server@1.2.3" 77%Z) ].

(** The text [JSON.stringify] gives for an object. *)
Definition json_text (v : value) : string :=
  match JSON_stringify v with
  | Some text => text
  | None => EmptyString
  end.

Definition demo_world : world :=
  World (json_text (registry_value demo_registry)) [].

Definition single_registry : registry :=
  [ ("alice/demo", demo_record "alice/demo" 4242%Z) ].

Definition single_world : world :=
  World (json_text (registry_value single_registry)) [].

End Registry.

(* ================================================================== *)
(** ** Config: the host-application configuration file                 *)
(* ================================================================== *)

Module Config.
Import Text Js Mcpk Registry.

(** [a || b] *)
Definition js_or (a b : value) : value := if truthy a then a else b.

(** [CAULDE_CONFIG_PATH]: the environment variable when it is set and
    not empty, the path under the home directory otherwise.  The joined
    default path is taken whole. *)
Definition CAULDE_CONFIG_PATH (env_path : option string) (default_path : string)
  : string :=
  match env_path with
  | Some p => if truthy (VStr p) then p else default_path
  | None => default_path
  end.

(** [process.env.MCPK_DEFAULT_API_KEY] *)
Definition env_value (variable : option string) : value :=
  match variable with
  | Some s => VStr s
  | None => VUndefined
  end.

(** The object literal assigned to [config[serverName]]; its members are
    evaluated in the order written. *)
Definition claude_entry (default_key : option string) (serverInfo : value)
  : result value :=
  rbind (get_property serverInfo "port") (fun port =>
  rbind (to_string (js_or port (VNum 3000))) (fun port_text =>
  rbind (get_property serverInfo "apiKey") (fun apiKey =>
  rbind (get_property serverInfo "protocols") (fun protocols =>
  rbind (get_property serverInfo "metadata") (fun metadata =>
    Ok (VObj [ ("endpoint", VStr ("http://localhost:" ++ port_text));
               ("apiKey", js_or apiKey (env_value default_key));
               ("protocols", js_or protocols (VArr [VStr "grpc"; VStr "rest"]));
               ("metadata", js_or metadata (VObj [])) ])))))).

(** [updateClaudeConfig], on the content of the configuration file
    ([None] when it does not exist).  The write and the console line are
    its last two steps and neither is modelled to fail: [Ok (text, line)]
    means the file was written with [text] and [line] printed; on any
    other outcome the file was not written and nothing was printed. *)
Definition updateClaudeConfig (path : string) (default_key : option string)
  (serverName : string) (serverInfo : value) (existing : option string)
  : result (string * string) :=
  rbind (match existing with
         | Some text => JSON_parse text
         | None => Ok (VObj [])
         end) (fun config =>
  rbind (claude_entry default_key serverInfo) (fun entry =>
  rbind (set_property config serverName entry) (fun config' =>
    match JSON_stringify config' with
    | Some text => Ok (text, "Updated Claude configuration at " ++ path)
    | None => Unmodelled
    end))).

(** The entry as the file keeps it for a descriptor without port, key,
    protocols or metadata: the defaults, and the key only when the
    environment provides one. *)
Definition default_entry (default_key : option string) : value :=
  VObj ([ ("endpoint", VStr "http://localhost:3000") ]
        ++ match default_key with
           | Some k => [("apiKey", VStr k)]
           | None => []
           end
        ++ [ ("protocols", VArr [VStr "grpc"; VStr "rest"]);
             ("metadata", VObj []) ]).

(** A computation that leaves the registry file alone: same content
    afterwards, and no write among the effects it adds. *)
Definition quiet {A : Type} (m : M A) : Prop :=
  forall w,
    file (snd (m w)) = file w
    /\ exists tr,
         trace (snd (m w)) = (trace w ++ tr)%list
         /\ existsb is_write tr = false.

(** A registry file that is not JSON, and one that was never written. *)
Definition corrupt_world : world := World "{ not json" [].
Definition fresh_world : world := World "{}" [WriteFile "{}"].

(** An environment whose spawn fails. *)
Definition failing_spawn_env : env :=
  {| spawn_pid := None;
     now_iso := "2024-05-01T10:00:00.000Z";
     kill_succeeds := fun _ => true;
     error_message := error_message demo_env;
     locale_string := locale_string demo_env |}.

End Config.

(* ================================================================== *)
(** ** Facts about text                                                *)
(* ================================================================== *)

Import Text.

Unset Implicit Arguments.

Lemma append_assoc (a b c : string) : (a ++ b) ++ c = a ++ (b ++ c).
Proof. induction a as [|x a IH]; simpl; [reflexivity | now rewrite IH]. Qed.

Lemma append_empty_r (a : string) : a ++ EmptyString = a.
Proof. induction a as [|x a IH]; simpl; [reflexivity | now rewrite IH]. Qed.

Lemma length_append (a b : string) :
  String.length (a ++ b) = String.length a + String.length b.
Proof. induction a as [|x a IH]; simpl; [reflexivity | now rewrite IH]. Qed.

Lemma digit_char_is_digit (n : N) :
  (n < 10)%N -> is_digit (digit_char n) = true /\ digit_val (digit_char n) = n.
Proof.
  intros Hn. unfold is_digit, digit_val, digit_char.
  rewrite N_ascii_embedding by lia.
  split; [apply andb_true_intro; split; apply N.leb_le; lia | lia].
Qed.

(** Reading back the digits [to_digits] wrote. *)
Lemma read_to_digits (fuel : nat) :
  forall n t rest,
    (n < 10 ^ N.of_nat fuel)%N ->
    read_digits (to_digits fuel n t ++ rest) 0 = read_digits (t ++ rest) n.
Proof.
  induction fuel as [|f IH]; intros n t rest Hn.
  - simpl in Hn. assert (n = 0%N) by lia. subst n. reflexivity.
  - cbn [to_digits]. destruct (N.ltb_spec n 10) as [Hlt|Hge].
    + destruct (digit_char_is_digit n Hlt) as [Hd Hv].
      cbn [append read_digits]. rewrite Hd, Hv. f_equal.
    + rewrite IH.
      * assert (Hm : (n mod 10 < 10)%N) by (apply N.mod_lt; lia).
        destruct (digit_char_is_digit _ Hm) as [Hd Hv].
        cbn [append read_digits]. rewrite Hd, Hv. f_equal.
        rewrite (N.div_mod n 10) at 3 by lia. reflexivity.
      * rewrite Nat2N.inj_succ, N.pow_succ_r' in Hn.
        apply N.Div0.div_lt_upper_bound. lia.
Qed.

Lemma log2_fuel (n : N) : (n < 10 ^ N.of_nat (S (N.to_nat (N.log2 n))))%N.
Proof.
  rewrite Nat2N.inj_succ, N2Nat.id.
  destruct (N.eq_dec n 0) as [->|Hn]; [reflexivity|].
  assert (H := N.log2_spec n ltac:(lia)).
  apply N.lt_le_trans with (2 ^ N.succ (N.log2 n))%N; [lia|].
  apply N.pow_le_mono_l. lia.
Qed.

Lemma read_digits_stop (rest : string) (n : N) :
  match rest with
  | EmptyString => true
  | String c _ => negb (is_digit c)
  end = true ->
  read_digits rest n = (n, rest).
Proof.
  destruct rest as [|c r]; simpl; [reflexivity|].
  intros H. apply negb_true_iff in H. now rewrite H.
Qed.

(** The numeral of a positive number starts with a digit other than 0. *)
Lemma to_digits_head (fuel : nat) :
  forall n t,
    (0 < n)%N -> (n < 10 ^ N.of_nat fuel)%N ->
    exists c r, to_digits fuel n t = String c r
                /\ is_digit c = true /\ Ascii.eqb c "0" = false.
Proof.
  induction fuel as [|f IH]; intros n t Hn Hf; [simpl in Hf; lia|].
  cbn [to_digits]. destruct (N.ltb_spec n 10) as [Hlt|Hge].
  - exists (digit_char n), t. split; [reflexivity|].
    split; [apply digit_char_is_digit; assumption|].
    apply Ascii.eqb_neq. intros Heq.
    assert (Hv := proj2 (digit_char_is_digit n Hlt)).
    rewrite Heq in Hv. unfold digit_val in Hv. simpl in Hv. lia.
  - apply IH.
    + apply N.div_str_pos. lia.
    + rewrite Nat2N.inj_succ, N.pow_succ_r' in Hf.
      apply N.Div0.div_lt_upper_bound. lia.
Qed.

Lemma string_of_N_zero : string_of_N 0 = "0".
Proof. reflexivity. Qed.

Lemma string_of_N_head (n : N) :
  (0 < n)%N ->
  exists c r, string_of_N n = String c r
              /\ is_digit c = true /\ Ascii.eqb c "0" = false.
Proof. intros Hn. apply to_digits_head; [assumption | apply log2_fuel]. Qed.

Lemma read_string_of_N (n : N) (rest : string) :
  read_digits (string_of_N n ++ rest) 0 = read_digits rest n.
Proof. unfold string_of_N. now rewrite read_to_digits by apply log2_fuel. Qed.

Lemma skip_ws_spaces (n : nat) (s : string) :
  skip_ws (spaces n ++ s) = skip_ws s.
Proof. induction n as [|k IH]; simpl; [reflexivity | exact IH]. Qed.

Lemma skip_ws_nl_spaces (n : nat) (s : string) :
  skip_ws (nl ++ spaces n ++ s) = skip_ws s.
Proof. simpl. apply skip_ws_spaces. Qed.

Import Js.

(** Reading one quoted character gives the character back. *)
Lemma parse_quote_char (c : ascii) (s : string) :
  parse_string (quote_char c ++ s)
  = match parse_string s with
    | Ok (body, rest) => Ok (String c body, rest)
    | Throw x => Throw x
    | Unmodelled => Unmodelled
    end.
Proof.
  destruct c as [[] [] [] [] [] [] [] []]; reflexivity.
Qed.

Lemma parse_quote_body (s rest : string) :
  parse_string (quote_body s ++ String dquote rest) = Ok (s, rest).
Proof.
  induction s as [|c s IH]; [reflexivity|].
  cbn [quote_body]. rewrite append_assoc, parse_quote_char, IH. reflexivity.
Qed.

Lemma quote_append (s rest : string) :
  quote s ++ rest = String dquote (quote_body s ++ String dquote rest).
Proof. unfold quote. cbn [append]. now rewrite append_assoc. Qed.

Lemma number_end_digits (rest : string) (n : N) :
  number_end rest = true ->
  read_digits rest n = (n, rest) /\ continues_number rest = false.
Proof.
  destruct rest as [|c r]; [now split|].
  unfold number_end. intros H. apply andb_true_iff in H. destruct H as [H1 H2].
  apply negb_true_iff in H1, H2. split; [|assumption].
  simpl. now rewrite H1.
Qed.

Lemma is_digit_not_minus (c : ascii) :
  is_digit c = true -> Ascii.eqb c "-" = false.
Proof.
  intros H. apply Ascii.eqb_neq. intros ->. discriminate H.
Qed.

Lemma parse_int_string_of_N (n : N) (rest : string) :
  number_end rest = true ->
  parse_int (string_of_N n ++ rest) = Ok (n, rest).
Proof.
  intros Hrest. destruct (number_end_digits rest n Hrest) as [Hread _].
  destruct (N.eq_dec n 0) as [->|Hn].
  - rewrite string_of_N_zero. cbn [append parse_int Ascii.eqb Bool.eqb].
    destruct rest as [|d r]; [reflexivity|].
    unfold number_end in Hrest. apply andb_true_iff in Hrest.
    destruct Hrest as [Hd _]. apply negb_true_iff in Hd. now rewrite Hd.
  - destruct (string_of_N_head n ltac:(lia)) as (c & r & Hs & Hd & Hz).
    assert (Hr := read_string_of_N n rest). rewrite Hs in *.
    cbn [append parse_int] in *. rewrite Hz, Hd, Hr, Hread. reflexivity.
Qed.

Lemma string_of_N_first (n : N) :
  exists c r, string_of_N n = String c r /\ is_digit c = true.
Proof.
  destruct (N.eq_dec n 0) as [->|Hn].
  - exists "0"%char, EmptyString. now split.
  - destruct (string_of_N_head n ltac:(lia)) as (c & r & Hs & Hd & _).
    now exists c, r.
Qed.

(** A printed safe integer is read back. *)
Lemma parse_number_string_of_Z (z : Z) (rest : string) :
  safe_integer z = true -> number_end rest = true ->
  parse_number (string_of_Z z ++ rest) = Ok (VNum z, rest).
Proof.
  intros Hsafe Hrest. destruct (number_end_digits rest 0 Hrest) as [_ Hcont].
  unfold string_of_Z. destruct (Z.ltb_spec z 0) as [Hneg|Hpos].
  - unfold parse_number. cbn [append Ascii.eqb Bool.eqb].
    rewrite parse_int_string_of_N by assumption. cbn [rbind].
    rewrite Hcont.
    destruct (N.eqb_spec (Z.abs_N z) 0) as [H0|H0]; [lia|].
    cbn [andb]. rewrite N2Z.inj_abs_N, Z.abs_neq by lia.
    rewrite Z.opp_involutive, Hsafe. reflexivity.
  - destruct (string_of_N_first (Z.abs_N z)) as (c & r & Hs & Hd).
    unfold parse_number.
    assert (Hfirst : match string_of_N (Z.abs_N z) ++ rest with
                     | String c0 r0 =>
                         if Ascii.eqb c0 "-" then (true, r0)
                         else (false, string_of_N (Z.abs_N z) ++ rest)
                     | EmptyString => (false, string_of_N (Z.abs_N z) ++ rest)
                     end = (false, string_of_N (Z.abs_N z) ++ rest)).
    { rewrite Hs. cbn [append]. now rewrite (is_digit_not_minus _ Hd). }
    rewrite Hfirst, parse_int_string_of_N by assumption. cbn [rbind].
    rewrite Hcont. cbn [andb]. rewrite N2Z.inj_abs_N, Z.abs_eq by lia.
    rewrite Hsafe. reflexivity.
Qed.

(* ================================================================== *)
(** ** Facts about own properties and key order                        *)
(* ================================================================== *)

Lemma mem_In (k : string) (l : list string) : mem k l = true <-> In k l.
Proof.
  unfold mem. rewrite existsb_exists. split.
  - intros (x & Hx & Heq). apply String.eqb_eq in Heq. now subst.
  - intros H. exists k. split; [assumption | apply String.eqb_refl].
Qed.

Lemma mem_false (k : string) (l : list string) : mem k l = false <-> ~ In k l.
Proof.
  rewrite <- mem_In. destruct (mem k l); split; intros H; congruence.
Qed.

Lemma property_order_cons (k : string) (t : list string) :
  property_order (k :: t) = true
  <-> (forall x, In x t -> key_before k x = true)
      /\ ~ In k t /\ property_order t = true.
Proof.
  cbn [property_order]. rewrite !andb_true_iff, forallb_forall, negb_true_iff.
  rewrite mem_false. tauto.
Qed.

(** An array index is the numeral of its value. *)
Lemma array_index_numeral (k : string) (n : N) :
  array_index k = Some n -> k = string_of_N n.
Proof.
  unfold array_index. destruct k as [|c r]; [discriminate|].
  destruct (is_digit c); [|discriminate].
  destruct (read_digits (String c r) 0) as [m [|c' r']]; [|discriminate].
  destruct ((m <=? 4294967294)%N && (string_of_N m =? String c r)%string) eqn:H;
    [|discriminate].
  intros [= <-]. apply andb_true_iff in H. destruct H as [_ H].
  apply String.eqb_eq in H. now symmetry.
Qed.

Lemma array_index_inj (a b : string) (n : N) :
  array_index a = Some n -> array_index b = Some n -> a = b.
Proof.
  intros Ha Hb. apply array_index_numeral in Ha, Hb. congruence.
Qed.

Lemma key_before_trans (a b c : string) :
  key_before a b = true -> key_before b c = true -> key_before a c = true.
Proof.
  unfold key_before.
  destruct (array_index a), (array_index b), (array_index c);
    try congruence; rewrite !N.ltb_lt; lia.
Qed.

Lemma key_before_not_index (a b : string) :
  array_index b = None -> key_before a b = true.
Proof. unfold key_before. intros ->. now destruct (array_index a). Qed.

Section OwnPropertyFacts.
Variable A : Type.
Implicit Types (ps : list (string * A)) (k : string) (v : A).

Lemma lookup_None ps k : lookup k ps = None <-> ~ In k (map fst ps).
Proof.
  induction ps as [|[k' v'] t IH]; cbn [lookup map fst In]; [tauto|].
  destruct (String.eqb_spec k' k) as [->|Hne].
  - split; [discriminate | tauto].
  - rewrite IH. tauto.
Qed.

Lemma lookup_Some_In ps k v : lookup k ps = Some v -> In (k, v) ps.
Proof.
  induction ps as [|[k' v'] t IH]; cbn [lookup In]; [discriminate|].
  destruct (String.eqb_spec k' k) as [->|Hne].
  - intros [= ->]. now left.
  - intros H. right. now apply IH.
Qed.

Lemma lookup_In ps k v :
  property_order (map fst ps) = true -> In (k, v) ps -> lookup k ps = Some v.
Proof.
  induction ps as [|[k' v'] t IH]; cbn [lookup map fst In]; [tauto|].
  rewrite property_order_cons. intros (_ & Hnotin & Hord) [Heq|Hin].
  - injection Heq as -> ->. now rewrite String.eqb_refl.
  - destruct (String.eqb_spec k' k) as [->|Hne]; [|now apply IH].
    exfalso. apply Hnotin. apply in_map_iff. now exists (k, v).
Qed.

Lemma replace_value_keys ps k v : map fst (replace_value k v ps) = map fst ps.
Proof.
  induction ps as [|[k' v'] t IH]; cbn [replace_value map fst]; [reflexivity|].
  destruct (String.eqb k' k); cbn [map fst]; [reflexivity | now rewrite IH].
Qed.

Lemma insert_index_In n k v ps x :
  In x (map fst (insert_index n k v ps)) <-> x = k \/ In x (map fst ps).
Proof.
  induction ps as [|[k' v'] t IH]; cbn [insert_index map fst In].
  - intuition congruence.
  - destruct (array_index k') as [m|]; [destruct (m <? n)%N|];
      cbn [map fst In]; try rewrite IH; intuition congruence.
Qed.

(** A key that follows every key of the object is added last. *)
Lemma insert_index_end n k v ps :
  array_index k = Some n ->
  (forall x, In x (map fst ps) -> key_before x k = true) ->
  insert_index n k v ps = (ps ++ [(k, v)])%list.
Proof.
  intros Hk. induction ps as [|[k' v'] t IH]; cbn [insert_index map fst In app];
    intros Hall; [reflexivity|].
  assert (Hb := Hall k' (or_introl eq_refl)).
  unfold key_before in Hb. rewrite Hk in Hb.
  destruct (array_index k') as [m|]; [|discriminate].
  rewrite Hb, IH; [reflexivity|]. intros x Hx. apply Hall. now right.
Qed.

Lemma property_order_snoc (ks : list string) k :
  property_order (ks ++ [k])%list = true
  <-> property_order ks = true
      /\ (forall x, In x ks -> key_before x k = true) /\ ~ In k ks.
Proof.
  induction ks as [|a t IH].
  - cbn. intuition.
  - cbn [app]. rewrite !property_order_cons, IH. cbn [In].
    split.
    + intros (Hall & Hnotin & Hord & Hbefore & Hk). repeat split.
      * intros x Hx. apply Hall, in_or_app. now left.
      * intros Hin. apply Hnotin, in_or_app. now left.
      * assumption.
      * intros x [<-|Hx]; [apply Hall, in_or_app; right; now left | auto].
      * intros [->|Hin]; [apply Hnotin, in_or_app; right; now left | auto].
    + intros ((Hall & Hnotin & Hord) & Hbefore & Hk). repeat split.
      * intros x Hx. apply in_app_or in Hx. destruct Hx as [Hx|[<-|[]]]; auto.
      * intros Hin. apply in_app_or in Hin. destruct Hin as [Hin|[<-|[]]]; auto.
      * assumption.
      * auto.
      * intros Hin. apply Hk. now right.
Qed.

Lemma define_property_snoc ps k v :
  property_order (map fst (ps ++ [(k, v)])%list) = true ->
  define_property ps k v = (ps ++ [(k, v)])%list.
Proof.
  rewrite map_app. cbn [map fst]. rewrite property_order_snoc.
  intros (_ & Hbefore & Hnotin). unfold define_property.
  rewrite (proj2 (lookup_None ps k) Hnotin).
  destruct (array_index k) as [n|] eqn:Hk; [|reflexivity].
  now apply insert_index_end.
Qed.

(** Building an object from its own entries, in its own order, gives the
    object back. *)
Lemma object_of_entries_ordered ps :
  property_order (map fst ps) = true -> object_of_entries ps = ps.
Proof.
  unfold object_of_entries. induction ps as [|[k v] t IH] using rev_ind;
    [reflexivity|].
  intros Hord. rewrite fold_left_app. cbn [fold_left fst snd].
  rewrite IH.
  - now apply define_property_snoc.
  - rewrite map_app in Hord. cbn [map fst] in Hord.
    now apply property_order_snoc in Hord.
Qed.

Lemma insert_index_order n k v ps :
  array_index k = Some n ->
  property_order (map fst ps) = true ->
  ~ In k (map fst ps) ->
  property_order (map fst (insert_index n k v ps)) = true.
Proof.
  intros Hk. induction ps as [|[k' v'] t IH]; cbn [insert_index map fst];
    intros Hord Hnotin; [reflexivity|].
  apply property_order_cons in Hord. destruct Hord as (Hall & Hk' & Hord).
  assert (Hne : k' <> k) by (intros ->; apply Hnotin; now left).
  assert (Hnt : ~ In k (map fst t)) by (intros H; apply Hnotin; now right).
  destruct (array_index k') as [m|] eqn:Hm; [destruct (N.ltb_spec m n)|].
  - cbn [map fst]. apply property_order_cons. repeat split.
    + intros x Hx. apply insert_index_In in Hx. destruct Hx as [->|Hx]; auto.
      unfold key_before. rewrite Hm, Hk. now apply N.ltb_lt.
    + rewrite insert_index_In. intros [Heq|Hin]; [congruence | auto].
    + now apply IH.
  - assert (Hlt : (n < m)%N).
    { destruct (N.eq_dec m n) as [->|]; [|lia].
      exfalso. apply Hne. now apply array_index_inj with n. }
    assert (Hkk' : key_before k k' = true).
    { unfold key_before. rewrite Hm, Hk. now apply N.ltb_lt. }
    cbn [map fst]. apply property_order_cons. repeat split.
    + intros x [<-|Hx]; [assumption|].
      apply key_before_trans with k'; auto.
    + assumption.
    + apply property_order_cons. now repeat split.
  - cbn [map fst]. apply property_order_cons. repeat split.
    + intros x Hx. apply key_before_not_index.
      destruct Hx as [<-|Hx]; [assumption|].
      specialize (Hall x Hx). unfold key_before in Hall. rewrite Hm in Hall.
      now destruct (array_index x).
    + assumption.
    + apply property_order_cons. now repeat split.
Qed.

(** Defining a property keeps the key order. *)
Lemma define_property_order ps k v :
  property_order (map fst ps) = true ->
  property_order (map fst (define_property ps k v)) = true.
Proof.
  intros Hord. unfold define_property.
  destruct (lookup k ps) eqn:Hl.
  - now rewrite replace_value_keys.
  - apply lookup_None in Hl.
    destruct (array_index k) as [n|] eqn:Hk.
    + now apply insert_index_order.
    + rewrite map_app. cbn [map fst]. apply property_order_snoc.
      repeat split; [assumption | | assumption].
      intros x _. now apply key_before_not_index.
Qed.

Lemma define_property_keys ps k v x :
  lookup k ps = None ->
  In x (map fst (define_property ps k v)) <-> x = k \/ In x (map fst ps).
Proof.
  intros Hl. unfold define_property. rewrite Hl.
  destruct (array_index k) as [n|].
  - apply insert_index_In.
  - rewrite map_app, in_app_iff. cbn. intuition congruence.
Qed.

Lemma lookup_insert_index n k v ps k0 :
  lookup k ps = None ->
  lookup k0 (insert_index n k v ps)
  = if String.eqb k k0 then Some v else lookup k0 ps.
Proof.
  induction ps as [|[k' v'] t IH]; cbn [insert_index lookup]; [reflexivity|].
  destruct (String.eqb_spec k' k) as [->|Hne]; [discriminate|]. intros Hl.
  destruct (array_index k') as [m|]; [destruct (m <? n)%N|]; cbn [lookup];
    try reflexivity.
  rewrite (IH Hl).
  destruct (String.eqb_spec k' k0), (String.eqb_spec k k0);
    congruence || reflexivity.
Qed.

Lemma lookup_app ps qs k :
  lookup k (ps ++ qs)%list
  = match lookup k ps with Some u => Some u | None => lookup k qs end.
Proof.
  induction ps as [|[k' v'] t IH]; cbn [app lookup]; [reflexivity|].
  now destruct (String.eqb k' k).
Qed.

Lemma lookup_define_same ps k v :
  lookup k ps = None -> lookup k (define_property ps k v) = Some v.
Proof.
  intros Hl. unfold define_property. rewrite Hl.
  destruct (array_index k) as [n|].
  - now rewrite lookup_insert_index, String.eqb_refl.
  - rewrite lookup_app, Hl. cbn. now rewrite String.eqb_refl.
Qed.

Lemma lookup_define_other ps k v k0 :
  lookup k ps = None -> k0 <> k ->
  lookup k0 (define_property ps k v) = lookup k0 ps.
Proof.
  intros Hl Hne. unfold define_property. rewrite Hl.
  destruct (array_index k) as [n|].
  - rewrite lookup_insert_index by assumption.
    destruct (String.eqb_spec k k0); [congruence | reflexivity].
  - rewrite lookup_app. destruct (lookup k0 ps); [reflexivity|].
    cbn. destruct (String.eqb_spec k k0); [congruence | reflexivity].
Qed.

Lemma delete_property_In ps k x :
  In x (map fst (delete_property k ps)) -> In x (map fst ps).
Proof.
  induction ps as [|[k' v'] t IH]; cbn [delete_property map fst In]; [tauto|].
  destruct (String.eqb k' k); cbn [map fst In]; tauto.
Qed.

(** Deleting a property keeps the key order. *)
Lemma delete_property_order ps k :
  property_order (map fst ps) = true ->
  property_order (map fst (delete_property k ps)) = true.
Proof.
  induction ps as [|[k' v'] t IH]; cbn [delete_property map fst]; [tauto|].
  rewrite property_order_cons. intros (Hall & Hnotin & Hord).
  destruct (String.eqb k' k); [assumption|].
  cbn [map fst]. apply property_order_cons. repeat split.
  - intros x Hx. apply Hall. now apply delete_property_In in Hx.
  - intros Hin. apply Hnotin. now apply delete_property_In in Hin.
  - now apply IH.
Qed.

Lemma lookup_delete_same ps k :
  property_order (map fst ps) = true -> lookup k (delete_property k ps) = None.
Proof.
  induction ps as [|[k' v'] t IH]; cbn [delete_property map fst lookup];
    [reflexivity|].
  rewrite property_order_cons. intros (_ & Hnotin & Hord).
  destruct (String.eqb_spec k' k) as [->|Hne].
  - now apply lookup_None.
  - cbn [lookup]. destruct (String.eqb_spec k' k); [congruence | now apply IH].
Qed.

Lemma lookup_delete_other ps k k0 :
  k0 <> k -> lookup k0 (delete_property k ps) = lookup k0 ps.
Proof.
  intros Hne. induction ps as [|[k' v'] t IH]; cbn [delete_property lookup];
    [reflexivity|].
  destruct (String.eqb_spec k' k) as [->|Hk].
  - destruct (String.eqb_spec k k0); [congruence | reflexivity].
  - cbn [lookup]. now rewrite IH.
Qed.

End OwnPropertyFacts.

(** Mapping the values of an object commutes with the operations on its
    own properties. *)
Section MapValues.
Variables (A B : Type) (f : A -> B).
Implicit Types (ps : list (string * A)) (k : string) (v : A).

Lemma map_values_keys ps : map fst (map_values f ps) = map fst ps.
Proof. unfold map_values. rewrite map_map. reflexivity. Qed.

Lemma lookup_map_values ps k :
  lookup k (map_values f ps) = option_map f (lookup k ps).
Proof.
  unfold map_values.
  induction ps as [|[k' v'] t IH]; cbn [map lookup fst snd]; [reflexivity|].
  destruct (String.eqb k' k); [reflexivity | exact IH].
Qed.

Lemma replace_value_map_values ps k v :
  replace_value k (f v) (map_values f ps) = map_values f (replace_value k v ps).
Proof.
  unfold map_values.
  induction ps as [|[k' v'] t IH]; cbn [map replace_value fst snd];
    [reflexivity|].
  destruct (String.eqb k' k); cbn [map fst snd]; [reflexivity | now rewrite IH].
Qed.

Lemma insert_index_map_values n ps k v :
  insert_index n k (f v) (map_values f ps) = map_values f (insert_index n k v ps).
Proof.
  unfold map_values.
  induction ps as [|[k' v'] t IH]; cbn [map insert_index fst snd];
    [reflexivity|].
  destruct (array_index k') as [m|]; [destruct (m <? n)%N|]; cbn [map fst snd];
    try reflexivity.
  now rewrite IH.
Qed.

Lemma define_property_map_values ps k v :
  define_property (map_values f ps) k (f v) = map_values f (define_property ps k v).
Proof.
  unfold define_property. rewrite lookup_map_values.
  destruct (lookup k ps); cbn [option_map].
  - apply replace_value_map_values.
  - destruct (array_index k).
    + apply insert_index_map_values.
    + unfold map_values. now rewrite map_app.
Qed.

Lemma delete_property_map_values ps k :
  delete_property k (map_values f ps) = map_values f (delete_property k ps).
Proof.
  unfold map_values.
  induction ps as [|[k' v'] t IH]; cbn [map delete_property fst snd];
    [reflexivity|].
  destruct (String.eqb k' k); cbn [map fst snd]; [reflexivity | now rewrite IH].
Qed.

End MapValues.

(* ================================================================== *)
(** ** [JSON.parse] after [JSON.stringify]                             *)
(* ================================================================== *)

(** Induction on values, through the elements of arrays and the members
    of objects. *)
Lemma value_ind (P : value -> Prop) :
  P VUndefined -> P VNull -> (forall b, P (VBool b)) ->
  (forall z, P (VNum z)) -> (forall s, P (VStr s)) ->
  (forall elems, Forall P elems -> P (VArr elems)) ->
  (forall props, Forall (fun kv => P (snd kv)) props -> P (VObj props)) ->
  (forall name, P (VFunction name)) ->
  forall v, P v.
Proof.
  intros Hu Hn Hb Hz Hs Ha Ho Hf. fix F 1.
  intros [ | | b | z | s | elems | props | name].
  - exact Hu.
  - exact Hn.
  - apply Hb.
  - apply Hz.
  - apply Hs.
  - apply Ha. induction elems as [|x t IH]; constructor; [apply F | exact IH].
  - apply Ho. induction props as [|[k x] t IH]; constructor;
      [apply F | exact IH].
  - apply Hf.
Qed.

Lemma value_start_token (c : ascii) :
  value_start c = true ->
  is_ws c = false /\ Ascii.eqb c "]" = false /\ Ascii.eqb c "}" = false
  /\ Ascii.eqb c "," = false.
Proof.
  destruct c as [[] [] [] [] [] [] [] []]; intros H;
    solve [discriminate H | repeat split; reflexivity].
Qed.

Lemma parse_value_ws (fuel : nat) (s s' : string) :
  skip_ws s = skip_ws s' -> parse_value fuel s = parse_value fuel s'.
Proof.
  intros H. destruct fuel; cbn [parse_value]; [reflexivity | now rewrite H].
Qed.

Lemma parse_value_indent (fuel k : nat) (s : string) :
  parse_value fuel (nl ++ spaces k ++ s) = parse_value fuel s.
Proof. apply parse_value_ws, skip_ws_nl_spaces. Qed.

Lemma expect_indent (c : ascii) (k : nat) (s : string) :
  expect c (nl ++ spaces k ++ s) = expect c s.
Proof. unfold expect. now rewrite skip_ws_nl_spaces. Qed.

Lemma expect_here (c : ascii) (r : string) :
  is_ws c = false -> expect c (String c r) = Some r.
Proof.
  intros H. unfold expect. cbn [skip_ws]. now rewrite H, Ascii.eqb_refl.
Qed.

Lemma expect_other (c a : ascii) (r : string) :
  is_ws a = false -> Ascii.eqb a c = false -> expect c (String a r) = None.
Proof. intros H Hne. unfold expect. cbn [skip_ws]. now rewrite H, Hne. Qed.

Lemma parse_value_number (f : nat) (c : ascii) (r : string) :
  Ascii.eqb c "-" || is_digit c = true ->
  parse_value (S f) (String c r) = parse_number (String c r).
Proof.
  destruct c as [[] [] [] [] [] [] [] []]; intros H;
    solve [discriminate H | reflexivity].
Qed.

Lemma string_of_Z_first (z : Z) :
  exists c r, string_of_Z z = String c r
              /\ Ascii.eqb c "-" || is_digit c = true.
Proof.
  unfold string_of_Z. destruct (z <? 0)%Z.
  - now exists "-"%char, (string_of_N (Z.abs_N z)).
  - destruct (string_of_N_first (Z.abs_N z)) as (c & r & -> & Hd).
    exists c, r. split; [reflexivity|]. rewrite Hd. apply orb_true_r.
Qed.

Lemma number_first_start (c : ascii) :
  Ascii.eqb c "-" || is_digit c = true -> value_start c = true.
Proof.
  unfold value_start. intros H. apply orb_true_iff in H.
  destruct H as [-> | ->]; rewrite ?orb_true_r; reflexivity.
Qed.

Lemma join_cons (sep p : string) (ps : list string) :
  join sep (p :: ps)
  = match ps with
    | [] => p
    | _ => p ++ sep ++ join sep ps
    end.
Proof. destruct ps; reflexivity. Qed.

Section Blocks.
Variables (lvl : nat) (rest : string).

Let inner := 2 * S lvl.
Let sep := "," ++ nl ++ spaces inner.

Lemma sep_append (s : string) :
  sep ++ s = String "," (nl ++ spaces inner ++ s).
Proof. unfold sep. rewrite !append_assoc. reflexivity. Qed.

(** The elements of an array, each read back by [parse_value]. *)
Lemma parse_elements_items (x : value) (l : list value) :
  Forall (fun y =>
            exists c r, item_text (S lvl) y = String c r
              /\ value_start c = true
              /\ forall fuel rest', size y <= fuel -> number_end rest' = true ->
                   parse_value fuel (item_text (S lvl) y ++ rest') = Ok (y, rest'))
         (x :: l) ->
  forall fuel,
    list_sum (map (fun y => S (size y)) (x :: l)) <= fuel ->
    parse_elements fuel
      (nl ++ spaces inner
          ++ join sep (map (item_text (S lvl)) (x :: l))
          ++ nl ++ spaces (2 * lvl) ++ String "]" rest)
    = Ok (x :: l, rest).
Proof.
  revert x. induction l as [|y t IH]; intros x Hall fuel Hfuel;
    inversion Hall as [|? ? (c & r & Hs & Hc & Hparse) Hrest]; subst;
    cbn [map list_sum fold_right] in Hfuel;
    (destruct fuel as [|f]; [lia|]); cbn [parse_elements];
    rewrite parse_value_indent.
  - cbn [map join]. rewrite Hparse by (reflexivity || lia). cbn [rbind].
    replace (expect "," (nl ++ spaces (2 * lvl) ++ String "]" rest)) with (@None string)
      by (rewrite expect_indent; reflexivity).
    rewrite expect_indent, expect_here by reflexivity. reflexivity.
  - cbn [map]. rewrite join_cons. cbn [map] in IH.
    rewrite !append_assoc. rewrite Hparse by (reflexivity || lia). cbn [rbind].
    rewrite sep_append, expect_here by reflexivity.
    rewrite IH; [reflexivity | assumption | cbn [map list_sum fold_right]; lia].
Qed.

Lemma member_append (kv : string * value) (s : string) :
  member_text (S lvl) kv ++ s
  = String dquote
      (quote_body (fst kv)
         ++ String dquote
              (String ":" (String " " (item_text (S lvl) (snd kv) ++ s)))).
Proof.
  unfold member_text. rewrite !append_assoc, quote_append. reflexivity.
Qed.

Lemma parse_value_space (fuel : nat) (s : string) :
  parse_value fuel (String " " s) = parse_value fuel s.
Proof. apply parse_value_ws. reflexivity. Qed.

(** The members of an object, each read back by [parse_value]. *)
Lemma parse_members_items (kx : string * value) (l : list (string * value)) :
  Forall (fun kv =>
            exists c r, item_text (S lvl) (snd kv) = String c r
              /\ value_start c = true
              /\ forall fuel rest', size (snd kv) <= fuel ->
                   number_end rest' = true ->
                   parse_value fuel (item_text (S lvl) (snd kv) ++ rest')
                   = Ok (snd kv, rest'))
         (kx :: l) ->
  forall fuel,
    list_sum (map (fun kv => S (size (snd kv))) (kx :: l)) <= fuel ->
    parse_members fuel
      (nl ++ spaces inner
          ++ join sep (map (member_text (S lvl)) (kx :: l))
          ++ nl ++ spaces (2 * lvl) ++ String "}" rest)
    = Ok (kx :: l, rest).
Proof.
  revert kx. induction l as [|ky t IH]; intros [k x] Hall fuel Hfuel;
    inversion Hall as [|? ? (c & r & Hs & Hc & Hparse) Hrest]; subst;
    cbn [map list_sum fold_right fst snd] in Hfuel, Hparse;
    (destruct fuel as [|f]; [lia|]); cbn [parse_members];
    rewrite expect_indent.
  - cbn [map join]. rewrite member_append, expect_here by reflexivity.
    rewrite parse_quote_body. cbn [rbind fst snd].
    rewrite expect_here by reflexivity. rewrite parse_value_space.
    rewrite Hparse by (reflexivity || lia). cbn [rbind].
    replace (expect "," (nl ++ spaces (2 * lvl) ++ String "}" rest)) with (@None string)
      by (rewrite expect_indent; reflexivity).
    rewrite expect_indent, expect_here by reflexivity. reflexivity.
  - cbn [map]. rewrite join_cons. cbn [map] in IH.
    rewrite !append_assoc, member_append, expect_here by reflexivity.
    rewrite parse_quote_body. cbn [rbind fst snd].
    rewrite expect_here by reflexivity. rewrite parse_value_space.
    rewrite Hparse by (reflexivity || lia). cbn [rbind].
    rewrite sep_append, expect_here by reflexivity.
    rewrite IH; [reflexivity | assumption | ].
    cbn [map list_sum fold_right]. lia.
Qed.

End Blocks.

Lemma parse_value_string (f : nat) (r : string) :
  parse_value (S f) (String dquote r)
  = rbind (parse_string r) (fun '(str, rest) => Ok (VStr str, rest)).
Proof. reflexivity. Qed.

Lemma parse_value_array (f : nat) (r : string) :
  parse_value (S f) (String "[" r)
  = match expect "]" r with
    | Some r' => Ok (VArr [], r')
    | None => rbind (parse_elements f r) (fun '(vs, rest) => Ok (VArr vs, rest))
    end.
Proof. reflexivity. Qed.

Lemma parse_value_object (f : nat) (r : string) :
  parse_value (S f) (String "{" r)
  = match expect "}" r with
    | Some r' => Ok (VObj [], r')
    | None =>
        rbind (parse_members f r) (fun '(ms, rest) =>
          Ok (VObj (object_of_entries ms), rest))
    end.
Proof. reflexivity. Qed.

Lemma length_join_bound (A : Type) (text : A -> string) (sz : A -> nat)
  (sep : string) (l : list A) :
  Forall (fun a => sz a <= String.length (text a)) l ->
  1 <= String.length sep ->
  list_sum (map (fun a => S (sz a)) l)
  <= String.length (join sep (map text l)) + 1.
Proof.
  intros Hall Hsep. induction Hall as [|a t Ha Ht IH]; [cbn; lia|].
  cbn [map]. rewrite join_cons. cbn [list_sum fold_right].
  fold (list_sum (map (fun a => S (sz a)) t)).
  destruct t as [|b t'].
  - cbn. lia.
  - cbn [map] in *. rewrite !length_append. lia.
Qed.

Lemma length_block (opening closing p : string) (lvl : nat) (ps : list string) (sep : string) :
  String.length opening = 1 -> String.length closing = 1 ->
  String.length (join ("," ++ nl ++ spaces (2 * S lvl)) (p :: ps)) + 4
  <= String.length (block opening closing lvl (p :: ps)).
Proof.
  intros Ho Hc. unfold block. rewrite !length_append, Ho, Hc.
  cbn [String.length nl]. lia.
Qed.

Lemma block_append (c closing : ascii) (lvl : nat) (p : string)
  (ps : list string) (rest : string) :
  block (String c EmptyString) (String closing EmptyString) lvl (p :: ps) ++ rest
  = String c (nl ++ spaces (2 * S lvl)
               ++ join ("," ++ nl ++ spaces (2 * S lvl)) (p :: ps)
               ++ nl ++ spaces (2 * lvl) ++ String closing rest).
Proof. unfold block. rewrite !append_assoc. reflexivity. Qed.

Lemma members_all_some (lvl : nat) (props : list (string * value)) :
  Forall (fun kv => serialize lvl (snd kv) = Some (item_text lvl (snd kv))) props ->
  flat_map (fun '(k, x) => match serialize lvl x with
                           | Some s => [quote k ++ ": " ++ s]
                           | None => []
                           end) props
  = map (member_text lvl) props.
Proof.
  induction 1 as [|[k x] t Hx Ht IH]; [reflexivity|].
  cbn [flat_map map]. cbn [snd] in Hx. rewrite Hx, IH. reflexivity.
Qed.

(** Every JSON value is read back from its own text. *)
Lemma reads_back_json (v : value) :
  is_json v = true -> forall lvl, reads_back lvl v.
Proof.
  induction v as [ | | b | z | s | elems IH | props IH | name] using value_ind;
    intros Hjson lvl; try discriminate Hjson.
  - repeat split.
    + now exists "n"%char, "ull".
    + cbn. lia.
    + intros [|f] rest Hf _; [cbn in Hf; lia | reflexivity].
  - destruct b; repeat split.
    + now exists "t"%char, "rue".
    + cbn. lia.
    + intros [|f] rest Hf _; [cbn in Hf; lia | reflexivity].
    + now exists "f"%char, "alse".
    + cbn. lia.
    + intros [|f] rest Hf _; [cbn in Hf; lia | reflexivity].
  - destruct (string_of_Z_first z) as (c & r & Hs & Hc).
    unfold reads_back, item_text. cbn [serialize size]. repeat split.
    + exists c, r. split; [assumption | now apply number_first_start].
    + rewrite Hs. cbn. lia.
    + intros [|f] rest Hf Hrest; [lia|].
      assert (Hn := parse_number_string_of_Z z rest Hjson Hrest).
      rewrite Hs in *. cbn [append] in *. now rewrite parse_value_number.
  - unfold reads_back, item_text. cbn [serialize size]. repeat split.
    + now exists dquote, (quote_body s ++ String dquote EmptyString).
    + unfold quote. cbn. lia.
    + intros [|f] rest Hf _; [lia|].
      rewrite quote_append, parse_value_string, parse_quote_body. reflexivity.
  - cbn [is_json] in Hjson. rewrite forallb_forall in Hjson.
    assert (Hall : Forall (reads_back (S lvl)) elems).
    { rewrite Forall_forall in *. intros x Hx. apply IH; auto. }
    assert (Htext : item_text lvl (VArr elems)
                    = block "[" "]" lvl (map (item_text (S lvl)) elems))
      by reflexivity.
    unfold reads_back. rewrite Htext. destruct elems as [|x t].
    + repeat split.
      * now exists "["%char, "]".
      * cbn. lia.
      * intros [|f] rest Hf _; [cbn in Hf; lia | reflexivity].
    + repeat split.
      * now exists "["%char,
          (nl ++ spaces (2 * S lvl)
              ++ join ("," ++ nl ++ spaces (2 * S lvl))
                   (map (item_text (S lvl)) (x :: t))
              ++ nl ++ spaces (2 * lvl) ++ "]").
      * cbn [size map]. 
        assert (Hlen := length_join_bound value (item_text (S lvl)) size
                          ("," ++ nl ++ spaces (2 * S lvl)) (x :: t)).
        assert (Hb := length_block "[" "]" (item_text (S lvl) x) lvl
                        (map (item_text (S lvl)) t) EmptyString eq_refl eq_refl).
        cbn [map] in Hlen.
        enough (list_sum (S (size x) :: map (fun a => S (size a)) t)
                <= String.length
                     (join ("," ++ nl ++ spaces (2 * S lvl))
                        (item_text (S lvl) x :: map (item_text (S lvl)) t)) + 1)
          by lia.
        apply Hlen; [|cbn; lia].
        eapply Forall_impl; [|exact Hall]. intros a (_ & _ & Ha & _). exact Ha.
      * intros [|f] rest Hf Hrest; [cbn in Hf; lia|].
        cbn [map]. rewrite block_append, parse_value_array.
        inversion Hall as [|? ? Hx Ht]; subst.
        destruct Hx as ((c & r & Hs & Hc) & _).
        destruct (value_start_token c Hc) as (Hws & Hclose & _).
        rewrite expect_indent, join_cons.
        assert (Hnone : forall tail, expect "]" (item_text (S lvl) x ++ tail) = None).
        { intros tail. rewrite Hs. cbn [append]. now apply expect_other. }
        replace (expect "]" _) with (@None string)
          by (destruct (map (item_text (S lvl)) t);
              rewrite ?append_assoc; now rewrite Hnone).
        rewrite <- join_cons.
        change (item_text (S lvl) x :: map (item_text (S lvl)) t)
          with (map (item_text (S lvl)) (x :: t)).
        rewrite parse_elements_items; [reflexivity | | cbn [size] in Hf; lia].
        eapply Forall_impl; [|exact Hall].
        intros a ((c' & r' & Hs' & Hc') & _ & _ & Hp). now exists c', r'.
  - cbn [is_json] in Hjson. apply andb_true_iff in Hjson.
    destruct Hjson as [Hord Hjson]. rewrite forallb_forall in Hjson.
    assert (Hall : Forall (fun kv => reads_back (S lvl) (snd kv)) props).
    { rewrite Forall_forall in *. intros [k x] Hx. apply IH; [assumption|].
      apply (Hjson (k, x) Hx). }
    assert (Htext : item_text lvl (VObj props)
                    = block "{" "}" lvl (map (member_text (S lvl)) props)).
    { unfold item_text. cbn [serialize]. rewrite members_all_some; [reflexivity|].
      eapply Forall_impl; [|exact Hall]. intros a (_ & Ha & _). exact Ha. }
    assert (Hser : serialize lvl (VObj props) = Some (item_text lvl (VObj props)))
      by reflexivity.
    unfold reads_back. rewrite Hser, Htext. clear Hser.
    destruct props as [|[k x] t].
    + repeat split.
      * now exists "{"%char, "}".
      * cbn. lia.
      * intros [|f] rest Hf _; [cbn in Hf; lia | reflexivity].
    + repeat split.
      * now exists "{"%char,
          (nl ++ spaces (2 * S lvl)
              ++ join ("," ++ nl ++ spaces (2 * S lvl))
                   (map (member_text (S lvl)) ((k, x) :: t))
              ++ nl ++ spaces (2 * lvl) ++ "}").
      * cbn [size map].
        assert (Hlen := length_join_bound (string * value)%type (member_text (S lvl))
                          (fun kv => size (snd kv))
                          ("," ++ nl ++ spaces (2 * S lvl)) ((k, x) :: t)).
        assert (Hb := length_block "{" "}" (member_text (S lvl) (k, x)) lvl
                        (map (member_text (S lvl)) t) EmptyString eq_refl eq_refl).
        cbn [map snd] in Hlen.
        assert (Heq : map (fun '(_, y) => S (size y)) t
                      = map (fun kv => S (size (snd kv))) t)
          by (apply map_ext; now intros [? ?]).
        rewrite Heq.
        enough (list_sum (S (size x) :: map (fun kv => S (size (snd kv))) t)
                <= String.length
                     (join ("," ++ nl ++ spaces (2 * S lvl))
                        (member_text (S lvl) (k, x) :: map (member_text (S lvl)) t)) + 1)
          by lia.
        apply Hlen; [|cbn; lia].
        eapply Forall_impl; [|exact Hall]. intros a (_ & _ & Ha & _).
        unfold member_text. rewrite !length_append. lia.
      * intros [|f] rest Hf Hrest; [cbn in Hf; lia|].
        cbn [map]. rewrite block_append, parse_value_object.
        rewrite expect_indent, join_cons.
        assert (Hnone : forall tail,
                   expect "}" (member_text (S lvl) (k, x) ++ tail) = None).
        { intros tail. rewrite member_append. now apply expect_other. }
        replace (expect "}" _) with (@None string)
          by (destruct (map (member_text (S lvl)) t);
              rewrite ?append_assoc; now rewrite Hnone).
        rewrite <- join_cons.
        change (member_text (S lvl) (k, x) :: map (member_text (S lvl)) t)
          with (map (member_text (S lvl)) ((k, x) :: t)).
        rewrite parse_members_items.
        -- cbn [rbind]. now rewrite object_of_entries_ordered.
        -- eapply Forall_impl; [|exact Hall].
           intros a ((c' & r' & Hs' & Hc') & _ & _ & Hp). now exists c', r'.
        -- cbn [size] in Hf.
           assert (Heq : map (fun '(_, y) => S (size y)) ((k, x) :: t)
                         = map (fun kv => S (size (snd kv))) ((k, x) :: t))
             by (apply map_ext; now intros [? ?]).
           rewrite Heq in Hf. lia.
Qed.

(** [JSON.parse (JSON.stringify (v, null, 2))] is [v] for every JSON
    value. *)
Lemma JSON_parse_stringify (v : value) :
  is_json v = true ->
  exists text, JSON_stringify v = Some text /\ JSON_parse text = Ok v.
Proof.
  intros Hjson. destruct (reads_back_json v Hjson 0) as (_ & Hser & Hsize & Hparse).
  exists (item_text 0 v). split; [exact Hser|].
  unfold JSON_parse. specialize (Hparse (S (String.length (item_text 0 v))) EmptyString).
  rewrite append_empty_r in Hparse. rewrite Hparse; [reflexivity | lia | reflexivity].
Qed.

(* ================================================================== *)
(** ** Facts about the registry                                        *)
(* ================================================================== *)

Import Mcpk Registry.

(** One step of a computation that returns, or throws. *)
Lemma bind_ok {A B : Type} {m : M A} (k : A -> M B) {w w' : world} {a : A} :
  m w = (Ok a, w') -> bind m k w = k a w'.
Proof. intros H. unfold bind. now rewrite H. Qed.

Lemma bind_throw {A B : Type} {m : M A} (k : A -> M B) {w w' : world} {e : exn} :
  m w = (Throw e, w') -> bind m k w = (Throw e, w').
Proof. intros H. unfold bind. now rewrite H. Qed.

Lemma bind_lift {A B : Type} {r : result A} (k : A -> M B) (w : world) {a : A} :
  r = Ok a -> bind (lift r) k w = k a w.
Proof. intros ->. reflexivity. Qed.

Lemma load_holds (w : world) (reg : registry) :
  holds w reg ->
  getRunningServers w
  = (Ok (registry_value reg), World (file w) (trace w ++ [ReadFile])).
Proof. intros H. unfold getRunningServers. now rewrite H. Qed.

Lemma get_registry_entry (reg : registry) (k : string) :
  get_property (registry_value reg) k
  = Ok match lookup k reg with
       | Some r => record_value r
       | None => match inherited k with
                 | Some v => v
                 | None => VUndefined
                 end
       end.
Proof.
  unfold registry_value, get_property. rewrite lookup_map_values.
  now destruct (lookup k reg).
Qed.

Lemma record_truthy (r : ServerRecord) : truthy (record_value r) = true.
Proof. reflexivity. Qed.

Lemma record_pid (r : ServerRecord) :
  get_property (record_value r) "pid" = Ok (pid_value r).
Proof. unfold record_value, pid_value. now destruct (pid r). Qed.

Lemma record_startTime (r : ServerRecord) :
  get_property (record_value r) "startTime" = Ok (VStr (startTime r)).
Proof. unfold record_value. now destruct (pid r). Qed.

Lemma record_info (r : ServerRecord) :
  get_property (record_value r) "info" = Ok (info_value (info r)).
Proof. unfold record_value. now destruct (pid r). Qed.

Lemma pid_to_string (r : ServerRecord) :
  to_string (pid_value r) = Ok (pid_text r).
Proof. unfold pid_value, pid_text. now destruct (pid r). Qed.

(** What an inherited property looks like to the commands: it is truthy
    and has no [pid], [startTime] or [info]. *)
Lemma inherited_value (k : string) (v : value) :
  inherited k = Some v ->
  truthy v = true
  /\ get_property v "pid" = Ok VUndefined
  /\ get_property v "startTime" = Ok VUndefined
  /\ get_property v "info" = Ok VUndefined.
Proof.
  unfold inherited. destruct (String.eqb k "__proto__").
  - intros [= <-]. now repeat split.
  - destruct (mem k object_prototype_functions); [|discriminate].
    intros [= <-]. now repeat split.
Qed.

Lemma inherited_not_proto (k : string) :
  inherited k = None -> String.eqb k "__proto__" = false.
Proof. unfold inherited. now destruct (String.eqb k "__proto__"). Qed.

Lemma lookup_names (reg : registry) (k : string) (r : ServerRecord) :
  lookup k reg = Some r -> In k (names reg).
Proof.
  intros H. apply lookup_Some_In in H. unfold names.
  apply in_map_iff. now exists (k, r).
Qed.

(** *** Registries are JSON values *)

Lemma strings_are_json (l : list string) : forallb is_json (map VStr l) = true.
Proof. induction l as [|a t IH]; [reflexivity | exact IH]. Qed.

Lemma info_is_json (i : ServerInfo) : is_json (info_value i) = true.
Proof.
  unfold info_value. cbn [is_json map fst forallb].
  rewrite strings_are_json. reflexivity.
Qed.

Lemma record_is_json (r : ServerRecord) :
  pid_safe r = true -> is_json (record_value r) = true.
Proof.
  unfold record_value, pid_safe. intros Hsafe.
  assert (Hi := info_is_json (info r)).
  destruct (pid r) as [p|]; cbn [app is_json map fst forallb]; cbn [is_json] in Hi;
    rewrite Hi, ?Hsafe; reflexivity.
Qed.

Lemma registry_wf_iff (reg : registry) :
  registry_wf reg = true
  <-> property_order (names reg) = true
      /\ forall k r, In (k, r) reg -> pid_safe r = true.
Proof.
  unfold registry_wf. rewrite andb_true_iff, forallb_forall. split.
  - intros [Ho Hp]. split; [assumption|]. intros k r Hin. apply (Hp (k, r) Hin).
  - intros [Ho Hp]. split; [assumption|]. intros [k r] Hin. now apply Hp with k.
Qed.

Lemma registry_ok_iff (reg : registry) :
  registry_ok reg = true
  <-> registry_wf reg = true
      /\ forall k, In k (names reg) -> inherited k = None.
Proof.
  unfold registry_ok. rewrite andb_true_iff, forallb_forall. split.
  - intros [Hw Hi]. split; [assumption|]. intros k Hk. specialize (Hi k Hk).
    now destruct (inherited k).
  - intros [Hw Hi]. split; [assumption|]. intros k Hk. now rewrite (Hi k Hk).
Qed.

Lemma registry_is_json (reg : registry) :
  registry_wf reg = true -> is_json (registry_value reg) = true.
Proof.
  rewrite registry_wf_iff. intros [Hord Hsafe].
  unfold registry_value. cbn [is_json]. rewrite map_values_keys.
  apply andb_true_intro. split; [exact Hord|].
  apply forallb_forall. intros [k x] Hin.
  unfold map_values in Hin. apply in_map_iff in Hin.
  destruct Hin as ([k' r] & [= <- <-] & Hin).
  apply record_is_json. now apply Hsafe with k'.
Qed.

(** Writing a registry and what the file holds afterwards. *)
Lemma save_registry (reg : registry) (w : world) :
  registry_wf reg = true ->
  exists text,
    JSON_stringify (registry_value reg) = Some text
    /\ JSON_parse text = Ok (registry_value reg)
    /\ saveRunningServers (registry_value reg) w
       = (Ok tt, World text (trace w ++ [WriteFile text])).
Proof.
  intros Hwf.
  destruct (JSON_parse_stringify _ (registry_is_json reg Hwf)) as (text & Hs & Hp).
  exists text. repeat split; try assumption.
  unfold saveRunningServers. now rewrite Hs.
Qed.

(** *** Records are determined by their values *)

Lemma map_VStr_inj (l l' : list string) : map VStr l = map VStr l' -> l = l'.
Proof.
  revert l'. induction l as [|a t IH]; intros [|b t']; cbn; try discriminate;
    [reflexivity|].
  intros [= -> H]. f_equal. now apply IH.
Qed.

Lemma info_value_inj (i i' : ServerInfo) : info_value i = info_value i' -> i = i'.
Proof.
  destruct i, i'. unfold info_value. cbn.
  intros [= -> -> H -> ->]. apply map_VStr_inj in H. now subst.
Qed.

Lemma record_value_inj (r r' : ServerRecord) :
  record_value r = record_value r' -> r = r'.
Proof.
  destruct r as [[p|] t i], r' as [[p'|] t' i']; unfold record_value;
    cbn [pid startTime info app]; intros H; try discriminate H;
    injection H as; subst; f_equal; apply info_value_inj;
    unfold info_value; congruence.
Qed.

Lemma registry_value_inj (reg reg' : registry) :
  registry_value reg = registry_value reg' -> reg = reg'.
Proof.
  unfold registry_value, map_values. intros [= H]. revert reg' H.
  induction reg as [|[k r] t IH]; intros [|[k' r'] t']; cbn [map fst snd];
    try discriminate; [reflexivity|].
  intros H. injection H as Hk Hr Ht. subst k'.
  assert (r = r') by (apply record_value_inj; unfold record_value; congruence).
  subst r'. f_equal. now apply IH.
Qed.

(** *** Adding and removing entries *)

Section DefineNew.
Variable A : Type.
Implicit Types (ps : list (string * A)) (k : string) (v : A).

Lemma replace_value_members k v ps x :
  In x (replace_value k v ps) -> x = (k, v) \/ In x ps.
Proof.
  induction ps as [|[k' v'] t IH]; cbn [replace_value In]; [tauto|].
  destruct (String.eqb_spec k' k) as [->|Hne]; cbn [In]; intuition.
Qed.

Lemma insert_index_members n k v ps x :
  In x (insert_index n k v ps) -> x = (k, v) \/ In x ps.
Proof.
  induction ps as [|[k' v'] t IH]; cbn [insert_index In].
  - intuition.
  - destruct (array_index k') as [m|]; [destruct (m <? n)%N|]; cbn [In];
      intuition.
Qed.

(** The entries after a definition are the new one and old ones. *)
Lemma define_property_members ps k v x :
  In x (define_property ps k v) -> x = (k, v) \/ In x ps.
Proof.
  unfold define_property. destruct (lookup k ps).
  - apply replace_value_members.
  - destruct (array_index k) as [n|].
    + apply insert_index_members.
    + intros Hin. apply in_app_or in Hin. cbn [In] in Hin. intuition.
Qed.

Lemma insert_index_length n k v ps :
  List.length (insert_index n k v ps) = S (List.length ps).
Proof.
  induction ps as [|[k' v'] t IH]; cbn [insert_index List.length]; [reflexivity|].
  destruct (array_index k') as [m|]; [destruct (m <? n)%N|];
    cbn [List.length]; now rewrite ?IH.
Qed.

Lemma define_property_length ps k v :
  lookup k ps = None ->
  List.length (define_property ps k v) = S (List.length ps).
Proof.
  intros Hl. unfold define_property. rewrite Hl.
  destruct (array_index k) as [n|].
  - apply insert_index_length.
  - rewrite length_app. cbn. lia.
Qed.

Lemma insert_index_split n k ps :
  exists l1 l2, forall v, insert_index n k v ps = (l1 ++ (k, v) :: l2)%list.
Proof.
  induction ps as [|[k' v'] t (l1 & l2 & IH)]; cbn [insert_index].
  - now exists [], [].
  - destruct (array_index k') as [m|]; [destruct (m <? n)%N|].
    + exists ((k', v') :: l1), l2. intros v. now rewrite IH.
    + now exists [], ((k', v') :: t).
    + now exists [], ((k', v') :: t).
Qed.

(** Where a new key goes does not depend on its value. *)
Lemma define_property_split ps k :
  lookup k ps = None ->
  exists l1 l2, forall v, define_property ps k v = (l1 ++ (k, v) :: l2)%list.
Proof.
  intros Hl. unfold define_property. rewrite Hl.
  destruct (array_index k) as [n|].
  - apply insert_index_split.
  - now exists ps, [].
Qed.

Lemma object_of_entries_order (es : list (string * A)) :
  property_order (map fst (object_of_entries es)) = true.
Proof.
  unfold object_of_entries.
  assert (H : forall acc : list (string * A),
             property_order (map fst acc) = true ->
             property_order
               (map fst (fold_left (fun ps kv => define_property ps (fst kv) (snd kv))
                           es acc)) = true).
  { induction es as [|[k v] t IH]; intros acc Hacc; cbn [fold_left]; [assumption|].
    apply IH. now apply define_property_order. }
  now apply H.
Qed.

Lemma object_of_entries_members (es : list (string * A)) (x : string * A) :
  In x (object_of_entries es) -> In x es.
Proof.
  unfold object_of_entries.
  assert (H : forall acc : list (string * A),
             In x (fold_left (fun ps kv => define_property ps (fst kv) (snd kv))
                     es acc) ->
             In x acc \/ In x es).
  { induction es as [|[k v] t IH]; intros acc Hin; cbn [fold_left] in Hin;
      [now left|].
    apply IH in Hin. cbn [fst snd] in Hin. destruct Hin as [Hin|Hin].
    - apply define_property_members in Hin.
      destruct Hin as [->|Hin]; [right; now left | now left].
    - right. now right. }
  intros Hin. apply H in Hin. now destruct Hin.
Qed.

Lemma object_of_single_entry k v : object_of_entries [(k, v)] = [(k, v)].
Proof.
  unfold object_of_entries, define_property. cbn [fold_left fst snd lookup].
  now destruct (array_index k).
Qed.

End DefineNew.

(** Every finite set of entries makes a registry an object can hold. *)
Lemma registry_of_entries_wf (es : list (string * ServerRecord)) :
  (forall k r, In (k, r) es -> pid_safe r = true) ->
  registry_wf (object_of_entries es) = true.
Proof.
  intros Hsafe. apply registry_wf_iff. split.
  - apply object_of_entries_order.
  - intros k r Hin. apply Hsafe with k. now apply object_of_entries_members.
Qed.

Lemma define_keeps_ok (reg : registry) (k : string) (r : ServerRecord) :
  registry_ok reg = true ->
  lookup k reg = None ->
  inherited k = None ->
  pid_safe r = true ->
  registry_ok (define_property reg k r) = true.
Proof.
  rewrite !registry_ok_iff, !registry_wf_iff.
  intros [[Hord Hsafe] Hinh] Hfind Hk Hr. repeat split.
  - now apply define_property_order.
  - intros k' r' Hin. apply define_property_members in Hin.
    destruct Hin as [[= -> ->]|Hin]; [assumption | now apply Hsafe with k'].
  - intros k' Hin. unfold names in Hin.
    apply define_property_keys in Hin; [|assumption].
    destruct Hin as [->|Hin]; [assumption | now apply Hinh].
Qed.

Lemma delete_keeps_wf (reg : registry) (k : string) :
  registry_wf reg = true -> registry_wf (delete_property k reg) = true.
Proof.
  rewrite !registry_wf_iff. intros [Hord Hsafe]. split.
  - now apply delete_property_order.
  - intros k' r Hin. apply Hsafe with k'.
    clear Hord Hsafe. induction reg as [|[a b] t IH]; [contradiction|].
    cbn [delete_property] in Hin. destruct (String.eqb a k).
    + now right.
    + destruct Hin as [Hin|Hin]; [now left | right; now apply IH].
Qed.

Lemma delete_keeps_ok (reg : registry) (k : string) :
  registry_ok reg = true -> registry_ok (delete_property k reg) = true.
Proof.
  rewrite !registry_ok_iff. intros [Hwf Hinh]. split.
  - now apply delete_keeps_wf.
  - intros k' Hin. apply Hinh. unfold names in *.
    now apply delete_property_In in Hin.
Qed.

(** An undefined member leaves no trace in the text: the record built by
    [cmd_start] after a failed spawn is written like the record without
    [pid]. *)
Lemma serialize_define_same_text (lvl : nat) (ps : list (string * value))
  (k : string) (v v' : value) :
  lookup k ps = None ->
  serialize (S lvl) v = serialize (S lvl) v' ->
  serialize lvl (VObj (define_property ps k v))
  = serialize lvl (VObj (define_property ps k v')).
Proof.
  intros Hl Heq. destruct (define_property_split _ ps k Hl) as (l1 & l2 & H).
  rewrite (H v), (H v'). cbn [serialize]. rewrite !flat_map_app.
  cbn [flat_map]. now rewrite Heq.
Qed.

(** *** Objects out of [JSON.parse] are in key order *)

Lemma parse_literal_value (word : string) (v v' : value) (s rest : string) :
  parse_literal word v s = Ok (v', rest) -> v' = v.
Proof.
  unfold parse_literal. destruct (strip_prefix word s); [|discriminate].
  now intros [= <- _].
Qed.

Lemma parse_number_value (s rest : string) (v : value) :
  parse_number s = Ok (v, rest) -> exists z, v = VNum z.
Proof.
  unfold parse_number.
  destruct (match s with
            | String c r => if Ascii.eqb c "-" then (true, r) else (false, s)
            | EmptyString => (false, s)
            end) as [negative s1].
  destruct (parse_int s1) as [[n r]| |]; cbn [rbind]; try discriminate.
  destruct (continues_number r); [discriminate|].
  destruct (negative && (n =? 0)%N); [discriminate|].
  destruct (safe_integer _); [|discriminate].
  intros [= <- _]. eauto.
Qed.

Lemma parse_value_object_order (fuel : nat) (s rest : string)
  (props : list (string * value)) :
  parse_value fuel s = Ok (VObj props, rest) ->
  property_order (map fst props) = true.
Proof.
  destruct fuel as [|f]; cbn [parse_value]; [discriminate|].
  destruct (skip_ws s) as [|c r]; [discriminate|].
  destruct (Ascii.eqb c "{").
  { destruct (expect "}" r).
    - now intros [= <- _].
    - destruct (parse_members f r) as [[ms r']| |]; cbn [rbind]; try discriminate.
      intros [= <- _]. apply object_of_entries_order. }
  destruct (Ascii.eqb c "[").
  { destruct (expect "]" r); [discriminate|].
    destruct (parse_elements f r) as [[vs r']| |]; cbn [rbind]; discriminate. }
  destruct (Ascii.eqb c dquote).
  { destruct (parse_string r) as [[str r']| |]; cbn [rbind]; discriminate. }
  destruct (Ascii.eqb c "t").
  { intros H. apply parse_literal_value in H. discriminate. }
  destruct (Ascii.eqb c "f").
  { intros H. apply parse_literal_value in H. discriminate. }
  destruct (Ascii.eqb c "n").
  { intros H. apply parse_literal_value in H. discriminate. }
  destruct (Ascii.eqb c "-" || is_digit c); [|discriminate].
  intros H. apply parse_number_value in H. destruct H as [z H]. discriminate.
Qed.

Lemma JSON_parse_object_order (text : string) (props : list (string * value)) :
  JSON_parse text = Ok (VObj props) -> property_order (map fst props) = true.
Proof.
  unfold JSON_parse.
  destruct (parse_value (S (String.length text)) text) as [[v rest]| |] eqn:Hp;
    cbn [rbind]; try discriminate.
  destruct (skip_ws rest); [|discriminate]. intros [= ->].
  now apply parse_value_object_order in Hp.
Qed.

(** The registry a file holds is in key order. *)
Lemma holds_order (w : world) (reg : registry) :
  holds w reg -> property_order (names reg) = true.
Proof.
  unfold holds, registry_value. intros H.
  apply JSON_parse_object_order in H. now rewrite map_values_keys in H.
Qed.


(** *** Descriptor resolution *)

Lemma split_no_separator (sep : ascii) (s : string) :
  contains sep s = false -> split sep s = [s].
Proof.
  induction s as [|c r IH]; cbn [contains split]; [reflexivity|].
  intros H. apply orb_false_iff in H. destruct H as [Hc Hr].
  now rewrite Hc, (IH Hr).
Qed.

Lemma split_at_separator (sep : ascii) (a b : string) :
  contains sep a = false ->
  split sep (a ++ String sep b) = a :: split sep b.
Proof.
  induction a as [|c r IH]; cbn [contains split append].
  - intros _. now rewrite Ascii.eqb_refl.
  - intros H. apply orb_false_iff in H. destruct H as [Hc Hr].
    now rewrite Hc, (IH Hr).
Qed.

Lemma fetchServerInfo_run (serverName : string) (w : world) :
  fetchServerInfo serverName w
  = (Ok (info_value (fetched_info serverName)),
     World (file w)
       (trace w ++
          [ConsoleLog ("Fetching information for " ++ serverName ++ " from "
                       ++ REGISTRY_URL ++ "...")])).
Proof.
  unfold fetchServerInfo, fetched_info, info_value, second, console_log, emit, bind.
  cbn [name command args description version map].
  now destruct (nth_error (split "/" serverName) 1).
Qed.

(** *** [cmd_list] *)

Lemma list_line_run (E : env) (reg : registry) (e : string * ServerRecord)
  (w : world) :
  lookup (fst e) reg = Some (snd e) ->
  list_line E (registry_value reg) (fst e) w
  = (Ok tt, World (file w) (trace w ++ [ConsoleLog (list_line_text E e)])).
Proof.
  intros Hfind. unfold list_line.
  rewrite get_registry_entry, Hfind, (bind_lift _ _ eq_refl).
  rewrite record_pid, (bind_lift _ _ eq_refl).
  rewrite pid_to_string, (bind_lift _ _ eq_refl).
  rewrite record_startTime, (bind_lift _ _ eq_refl).
  cbn [date_locale]. rewrite (bind_lift _ _ eq_refl). reflexivity.
Qed.

Lemma list_lines_run (E : env) (reg : registry) (l : list (string * ServerRecord)) :
  (forall e, In e l -> lookup (fst e) reg = Some (snd e)) ->
  forall w,
    for_each (map fst l) (list_line E (registry_value reg)) w
    = (Ok tt,
       World (file w)
         (trace w ++ map (fun e => ConsoleLog (list_line_text E e)) l)).
Proof.
  induction l as [|e t IH]; intros Hall w; cbn [map for_each].
  - unfold ret. rewrite app_nil_r. now destruct w.
  - rewrite (bind_ok _ (list_line_run E reg e w (Hall e (or_introl eq_refl)))).
    rewrite IH by (intros e' He'; apply Hall; now right).
    cbn [file trace]. now rewrite <- app_assoc.
Qed.

Lemma list_run (E : env) (reg : registry) (w : world) :
  holds w reg ->
  property_order (names reg) = true ->
  cmd_list E w
  = (Ok tt, World (file w) (trace w ++ ReadFile :: list_output E reg)).
Proof.
  intros Hholds Hord. unfold cmd_list.
  rewrite (bind_ok _ (load_holds w reg Hholds)).
  assert (Hkeys : object_keys (registry_value reg) = Ok (map fst reg)).
  { unfold object_keys, registry_value. now rewrite map_values_keys. }
  rewrite Hkeys, (bind_lift _ _ eq_refl).
  destruct reg as [|e t].
  - cbn [map List.length Nat.eqb list_output]. unfold console_log, emit.
    cbn [file trace]. now rewrite <- app_assoc.
  - replace (List.length (map fst (e :: t)) =? 0)%nat with false by reflexivity.
    unfold console_log, emit, bind at 1 2. cbn [file trace].
    rewrite list_lines_run.
    + cbn [file trace list_output]. now rewrite <- !app_assoc.
    + intros [k r] Hin. cbn [fst snd]. now apply lookup_In.
Qed.

(** *** The configuration snippets *)

Lemma claude_object_config (key : string) (i : ServerInfo) :
  claude_object key (VStr (command i)) (VArr (map VStr (args i)))
  = config_object key i.
Proof. unfold claude_object, config_object. now rewrite object_of_single_entry. Qed.

Lemma config_object_is_json (key : string) (i : ServerInfo) :
  is_json (config_object key i) = true.
Proof.
  unfold config_object. cbn [is_json map fst forallb property_order mem existsb].
  rewrite strings_are_json. reflexivity.
Qed.

Lemma bullet_items_strings (l : list string) :
  bullet_items (map VStr l) = Ok (map (fun a => "      - " ++ a) l).
Proof.
  induction l as [|a t IH]; [reflexivity|].
  cbn [map bullet_items to_string rbind]. now rewrite IH.
Qed.

Lemma generateConfigExample_run
  (serverName : string) (i : ServerInfo) (snippet : string) (w : world) :
  JSON_stringify (config_object (remove_first "@" serverName) i) = Some snippet ->
  generateConfigExample serverName (info_value i) w
  = (Ok (snippet, libre_text (remove_first "@" serverName) i), w).
Proof.
  intros Hser. unfold generateConfigExample, info_value.
  cbn [get_property lookup String.eqb Ascii.eqb Bool.eqb].
  rewrite !(bind_lift _ _ eq_refl).
  rewrite claude_object_config, Hser, (bind_lift _ _ eq_refl).
  cbn [to_string]. rewrite (bind_lift _ _ eq_refl).
  cbn [map_bullets]. rewrite bullet_items_strings, (bind_lift _ _ eq_refl).
  reflexivity.
Qed.


Lemma printed_lines (A : Type) (f : A -> string) (l : list A) :
  List.length (printed (map (fun a => ConsoleLog (f a)) l)) = List.length l.
Proof.
  unfold printed. induction l as [|a l IH]; [reflexivity|].
  cbn [map filter is_console_log List.length]. now rewrite IH.
Qed.

(* ================================================================== *)
(** ** What each command does                                          *)
(* ================================================================== *)

(** *** start *)

Lemma start_present_run
  (E : env) (serverName : string) (reg : registry) (r : ServerRecord) (w : world) :
  holds w reg ->
  lookup serverName reg = Some r ->
  cmd_start E serverName w
  = (Ok tt,
     World (file w)
       (trace w ++
          [ ReadFile;
            ConsoleLog ("Server " ++ serverName ++ " is already running (PID: "
                        ++ pid_text r ++ ")") ])).
Proof.
  intros Hholds Hfind. unfold cmd_start.
  rewrite (bind_ok _ (load_holds w reg Hholds)).
  rewrite get_registry_entry, Hfind.
  rewrite (bind_lift _ _ eq_refl), record_truthy.
  rewrite record_pid, (bind_lift _ _ eq_refl).
  rewrite pid_to_string, (bind_lift _ _ eq_refl).
  unfold console_log, emit. cbn [file trace]. now rewrite <- app_assoc.
Qed.

(** A name that [Object.prototype] defines is taken for a running
    server, whatever the registry. *)
Lemma start_inherited_run
  (E : env) (serverName : string) (reg : registry) (v : value) (w : world) :
  holds w reg ->
  lookup serverName reg = None ->
  inherited serverName = Some v ->
  cmd_start E serverName w
  = (Ok tt,
     World (file w)
       (trace w ++
          [ ReadFile;
            ConsoleLog ("Server " ++ serverName
                        ++ " is already running (PID: undefined)") ])).
Proof.
  intros Hholds Hfind Hinh.
  destruct (inherited_value serverName v Hinh) as (Ht & Hp & _).
  unfold cmd_start.
  rewrite (bind_ok _ (load_holds w reg Hholds)).
  rewrite get_registry_entry, Hfind, Hinh, (bind_lift _ _ eq_refl), Ht.
  rewrite Hp, (bind_lift _ _ eq_refl). cbn [to_string].
  rewrite (bind_lift _ _ eq_refl).
  unfold console_log, emit. cbn [file trace]. now rewrite <- app_assoc.
Qed.

Lemma save_same_text (v v' : value) :
  JSON_stringify v = JSON_stringify v' ->
  saveRunningServers v = saveRunningServers v'.
Proof. intros H. unfold saveRunningServers. now rewrite H. Qed.

(** Starting a server that is neither recorded nor shadowed by an
    inherited property: one entry is added and written to the file, and
    nothing else changes. *)
Lemma start_new_run
  (E : env) (serverName : string) (reg : registry) (w : world) :
  registry_ok reg = true ->
  holds w reg ->
  lookup serverName reg = None ->
  inherited serverName = None ->
  env_ok E = true ->
  let r := {| pid := spawn_pid E; startTime := now_iso E;
              info := fetched_info serverName |} in
  let reg' := define_property reg serverName r in
  exists text,
    cmd_start E serverName w
    = (Ok tt,
       World text
         (trace w ++
            [ ReadFile;
              ConsoleLog ("Fetching information for " ++ serverName ++ " from "
                          ++ REGISTRY_URL ++ "...");
              ConsoleLog ("Starting " ++ serverName ++ "...");
              Spawn (VStr "npx") (VArr [VStr "-y"; VStr serverName]);
              WriteFile text;
              ConsoleLog ("Server " ++ serverName ++ " started successfully (PID: "
                          ++ pid_text r ++ ")") ]))
    /\ JSON_stringify (registry_value reg') = Some text
    /\ (forall tr, holds (World text tr) reg')
    /\ registry_ok reg' = true
    /\ lookup serverName reg' = Some r
    /\ (forall other, other <> serverName -> lookup other reg' = lookup other reg)
    /\ List.length reg' = S (List.length reg).
Proof.
  intros Hok Hholds Hfind Hinh Henv r reg'.
  assert (Hok' : registry_ok reg' = true) by now apply define_keeps_ok.
  assert (Hwf' : registry_wf reg' = true) by now apply registry_ok_iff in Hok'.
  destruct (save_registry reg'
              (World (file w)
                 ((((trace w ++ [ReadFile])
                    ++ [ConsoleLog ("Fetching information for " ++ serverName
                                    ++ " from " ++ REGISTRY_URL ++ "...")])
                   ++ [ConsoleLog ("Starting " ++ serverName ++ "...")])
                  ++ [Spawn (VStr "npx") (VArr [VStr "-y"; VStr serverName])]))
              Hwf')
    as (text & Hser & Hparse & Hsave).
  exists text. repeat split.
  - unfold cmd_start.
    rewrite (bind_ok _ (load_holds w reg Hholds)).
    rewrite get_registry_entry, Hfind, Hinh, (bind_lift _ _ eq_refl).
    cbn [truthy]. rewrite (bind_ok _ (fetchServerInfo_run serverName _)).
    unfold console_log at 1, emit, bind at 1. cbn [file trace].
    assert (Hc : get_property (info_value (fetched_info serverName)) "command"
                 = Ok (VStr "npx")) by reflexivity.
    assert (Ha : get_property (info_value (fetched_info serverName)) "args"
                 = Ok (VArr [VStr "-y"; VStr serverName])) by reflexivity.
    rewrite Hc, (bind_lift _ _ eq_refl), Ha, (bind_lift _ _ eq_refl).
    unfold spawn, emit, ret, bind at 1 2. cbn [file trace].
    set (child := match spawn_pid E with
                  | Some p0 => VNum p0
                  | None => VUndefined
                  end).
    set (record := VObj [ ("pid", child); ("startTime", VStr (now_iso E));
                          ("info", info_value (fetched_info serverName)) ]).
    assert (Hset : set_property (registry_value reg) serverName record
                   = Ok (VObj (define_property
                                 (map_values record_value reg) serverName record))).
    { unfold set_property, registry_value. rewrite lookup_map_values, Hfind.
      cbn [option_map]. now rewrite (inherited_not_proto _ Hinh). }
    rewrite Hset, (bind_lift _ _ eq_refl).
    assert (Htext : JSON_stringify
                      (VObj (define_property
                               (map_values record_value reg) serverName record))
                    = JSON_stringify (registry_value reg')).
    { unfold JSON_stringify, registry_value, reg'.
      rewrite <- define_property_map_values.
      apply serialize_define_same_text.
      - rewrite lookup_map_values, Hfind. reflexivity.
      - unfold record, child, record_value, r. cbn [pid startTime info].
        now destruct (spawn_pid E). }
    rewrite (save_same_text _ _ Htext), (bind_ok _ Hsave).
    assert (Hpid : to_string child = Ok (pid_text r)).
    { unfold child, pid_text, r. cbn [pid]. now destruct (spawn_pid E). }
    rewrite Hpid, (bind_lift _ _ eq_refl).
    unfold console_log, emit. cbn [file trace].
    repeat (rewrite <- app_assoc; cbn [app]). reflexivity.
  - exact Hser.
  - intros tr. exact Hparse.
  - exact Hok'.
  - now apply lookup_define_same.
  - intros other Hne. now apply lookup_define_other.
  - now apply define_property_length.
Qed.

Lemma list_output_shows (E : env) (reg : registry) (e : string * ServerRecord) :
  In e reg -> In (ConsoleLog (list_line_text E e)) (list_output E reg).
Proof.
  intros Hin. unfold list_output. destruct reg as [|e0 t]; [contradiction|].
  right. right. now apply (in_map (fun e1 => ConsoleLog (list_line_text E e1))).
Qed.

(** After such a start, [list] shows the new server. *)
Lemma start_then_list
  (E : env) (serverName : string) (reg : registry) (w : world) :
  registry_ok reg = true ->
  holds w reg ->
  lookup serverName reg = None ->
  inherited serverName = None ->
  env_ok E = true ->
  let r := {| pid := spawn_pid E; startTime := now_iso E;
              info := fetched_info serverName |} in
  forall E',
    In (ConsoleLog (list_line_text E' (serverName, r)))
       (trace (snd (cmd_list E' (snd (cmd_start E serverName w))))).
Proof.
  intros Hok Hholds Hfind Hinh Henv r E'.
  destruct (start_new_run E serverName reg w Hok Hholds Hfind Hinh Henv)
    as (text & Hrun & _ & Hh & _ & Hnew & _).
  rewrite Hrun. cbn [snd].
  match goal with
  | |- context [cmd_list E' (World text ?tr)] => specialize (Hh tr)
  end.
  rewrite (list_run E' _ _ Hh (holds_order _ _ Hh)). cbn [snd trace].
  apply in_or_app. right. right.
  apply list_output_shows. now apply lookup_Some_In.
Qed.

(** *** stop *)

Lemma stop_absent_run
  (E : env) (serverName : string) (reg : registry) (w : world) :
  holds w reg ->
  lookup serverName reg = None ->
  inherited serverName = None ->
  cmd_stop E serverName w
  = (Ok tt,
     World (file w)
       (trace w ++
          [ReadFile; ConsoleLog ("Server " ++ serverName ++ " is not running")])).
Proof.
  intros Hholds Hfind Hinh. unfold cmd_stop.
  rewrite (bind_ok _ (load_holds w reg Hholds)).
  rewrite get_registry_entry, Hfind, Hinh, (bind_lift _ _ eq_refl).
  cbn [truthy negb]. unfold console_log, emit. cbn [file trace].
  now rewrite <- app_assoc.
Qed.

(** A name that [Object.prototype] defines is taken for a running server
    without a pid: the signal is refused and the failure reported. *)
Lemma stop_inherited_run
  (E : env) (serverName : string) (reg : registry) (v : value) (w : world) :
  holds w reg ->
  lookup serverName reg = None ->
  inherited serverName = Some v ->
  cmd_stop E serverName w
  = (Ok tt,
     World (file w)
       (trace w ++
          [ ReadFile;
            ConsoleError ("Failed to stop server " ++ serverName ++ ": "
                          ++ error_message E (InvalidPid VUndefined)) ])).
Proof.
  intros Hholds Hfind Hinh.
  destruct (inherited_value serverName v Hinh) as (Ht & Hp & _).
  unfold cmd_stop.
  rewrite (bind_ok _ (load_holds w reg Hholds)).
  rewrite get_registry_entry, Hfind, Hinh, (bind_lift _ _ eq_refl), Ht.
  cbn [negb]. unfold try_catch. rewrite Hp, (bind_lift _ _ eq_refl).
  erewrite bind_throw by reflexivity.
  unfold console_error, emit. cbn [file trace signal_events].
  rewrite app_nil_r. now rewrite <- app_assoc.
Qed.

Lemma stop_failed_run
  (E : env) (serverName : string) (reg : registry) (r : ServerRecord)
  (w : world) (err : exn) :
  holds w reg ->
  lookup serverName reg = Some r ->
  signal_outcome E (pid_value r) = Throw err ->
  cmd_stop E serverName w
  = (Ok tt,
     World (file w)
       (trace w ++ ReadFile :: signal_events (pid_value r)
          ++ [ConsoleError ("Failed to stop server " ++ serverName ++ ": "
                            ++ error_message E err)])).
Proof.
  intros Hholds Hfind Hsignal. unfold cmd_stop.
  rewrite (bind_ok _ (load_holds w reg Hholds)).
  rewrite get_registry_entry, Hfind, (bind_lift _ _ eq_refl), record_truthy.
  cbn [negb]. unfold try_catch.
  rewrite record_pid, (bind_lift _ _ eq_refl).
  erewrite bind_throw
    by (unfold process_kill; rewrite Hsignal; reflexivity).
  unfold console_error, emit. cbn [file trace].
  now rewrite <- !app_assoc.
Qed.

Lemma signal_events_no_write (v : value) :
  existsb is_write (signal_events v) = false.
Proof.
  unfold signal_events. destruct v; try reflexivity.
  now destruct ((-2147483648 <=? z)%Z && (z <=? 2147483647)%Z).
Qed.

Lemma stop_delivered_run
  (E : env) (serverName : string) (reg : registry) (r : ServerRecord) (w : world) :
  registry_wf reg = true ->
  holds w reg ->
  lookup serverName reg = Some r ->
  signal_outcome E (pid_value r) = Ok tt ->
  exists text,
    cmd_stop E serverName w
    = (Ok tt,
       World text
         (trace w ++ ReadFile :: signal_events (pid_value r)
            ++ [ WriteFile text;
                 ConsoleLog ("Server " ++ serverName ++ " stopped successfully") ]))
    /\ JSON_stringify (registry_value (delete_property serverName reg)) = Some text
    /\ JSON_parse text = Ok (registry_value (delete_property serverName reg)).
Proof.
  intros Hwf Hholds Hfind Hsignal.
  destruct (save_registry (delete_property serverName reg)
              (World (file w) ((trace w ++ [ReadFile]) ++ signal_events (pid_value r)))
              (delete_keeps_wf reg serverName Hwf))
    as (text & Hser & Hparse & Hsave).
  exists text. repeat split; try assumption.
  unfold cmd_stop.
  rewrite (bind_ok _ (load_holds w reg Hholds)).
  rewrite get_registry_entry, Hfind, (bind_lift _ _ eq_refl), record_truthy.
  cbn [negb]. unfold try_catch.
  rewrite record_pid, (bind_lift _ _ eq_refl).
  erewrite bind_ok
    by (unfold process_kill; rewrite Hsignal; reflexivity).
  cbn [file trace].
  assert (Hdel : delete_own (registry_value reg) serverName
                 = Ok (registry_value (delete_property serverName reg))).
  { unfold delete_own, registry_value. now rewrite delete_property_map_values. }
  rewrite Hdel, (bind_lift _ _ eq_refl).
  rewrite (bind_ok _ Hsave).
  unfold console_log, emit. cbn [file trace].
  now rewrite <- !app_assoc.
Qed.

(** The signal to a recorded pid is delivered or refused; the model has
    no third case. *)
Lemma signal_outcome_recorded (E : env) (r : ServerRecord) :
  signal_outcome E (pid_value r) = Ok tt
  \/ exists err, signal_outcome E (pid_value r) = Throw err.
Proof.
  unfold pid_value, signal_outcome. destruct (pid r) as [p|]; [|right; eauto].
  destruct ((-2147483648 <=? p)%Z && (p <=? 2147483647)%Z); [|right; eauto].
  destruct (kill_succeeds E p); [now left | right; eauto].
Qed.

(** *** status *)

Lemma status_absent_run (serverName : string) (reg : registry) (w : world) :
  holds w reg ->
  lookup serverName reg = None ->
  inherited serverName = None ->
  cmd_status serverName w
  = (Ok tt,
     World (file w)
       (trace w ++
          [ReadFile; ConsoleLog ("Server " ++ serverName ++ " is not running")])).
Proof.
  intros Hholds Hfind Hinh. unfold cmd_status.
  rewrite (bind_ok _ (load_holds w reg Hholds)).
  rewrite get_registry_entry, Hfind, Hinh, (bind_lift _ _ eq_refl).
  cbn [truthy negb]. unfold console_log, emit. cbn [file trace].
  now rewrite <- app_assoc.
Qed.

(** A name that [Object.prototype] defines has no descriptor: reading its
    description throws, after four lines were printed. *)
Lemma status_inherited_run
  (serverName : string) (reg : registry) (v : value) (w : world) :
  holds w reg ->
  lookup serverName reg = None ->
  inherited serverName = Some v ->
  cmd_status serverName w
  = (Throw (NullDereference "description"),
     World (file w)
       (trace w ++
          [ ReadFile;
            ConsoleLog ("Server: " ++ serverName);
            ConsoleLog "Status: Running";
            ConsoleLog "PID: undefined";
            ConsoleLog "Started: undefined" ])).
Proof.
  intros Hholds Hfind Hinh.
  destruct (inherited_value serverName v Hinh) as (Ht & Hp & Hs & Hi).
  unfold cmd_status.
  rewrite (bind_ok _ (load_holds w reg Hholds)).
  rewrite get_registry_entry, Hfind, Hinh, (bind_lift _ _ eq_refl), Ht.
  cbn [negb]. unfold console_log, emit, bind at 1 2. cbn [file trace].
  rewrite Hp, (bind_lift _ _ eq_refl). cbn [to_string].
  rewrite (bind_lift _ _ eq_refl). unfold bind at 1. cbn [file trace].
  rewrite Hs, (bind_lift _ _ eq_refl). cbn [to_string].
  rewrite (bind_lift _ _ eq_refl). unfold bind at 1. cbn [file trace].
  rewrite Hi, (bind_lift _ _ eq_refl).
  erewrite bind_throw by reflexivity.
  repeat (rewrite <- app_assoc; cbn [app]). reflexivity.
Qed.

Lemma status_running_run
  (serverName : string) (reg : registry) (r : ServerRecord) (snippet : string)
  (w : world) :
  holds w reg ->
  lookup serverName reg = Some r ->
  JSON_stringify (config_object (remove_first "@" serverName) (info r))
  = Some snippet ->
  cmd_status serverName w
  = (Ok tt,
     World (file w) (trace w ++ ReadFile :: status_lines serverName r snippet)).
Proof.
  intros Hholds Hfind Hser. unfold cmd_status.
  rewrite (bind_ok _ (load_holds w reg Hholds)).
  rewrite get_registry_entry, Hfind, (bind_lift _ _ eq_refl), record_truthy.
  cbn [negb]. unfold console_log, emit, bind at 1 2. cbn [file trace].
  rewrite record_pid, (bind_lift _ _ eq_refl).
  rewrite pid_to_string, (bind_lift _ _ eq_refl).
  unfold bind at 1. cbn [file trace].
  rewrite record_startTime, (bind_lift _ _ eq_refl).
  cbn [to_string]. rewrite (bind_lift _ _ eq_refl).
  unfold bind at 1. cbn [file trace].
  rewrite record_info, (bind_lift _ _ eq_refl).
  assert (Hd : get_property (info_value (info r)) "description"
               = Ok (VStr (description (info r)))) by reflexivity.
  assert (Hv : get_property (info_value (info r)) "version"
               = Ok (VStr (version (info r)))) by reflexivity.
  rewrite Hd, (bind_lift _ _ eq_refl). cbn [to_string].
  rewrite (bind_lift _ _ eq_refl). unfold bind at 1. cbn [file trace].
  rewrite Hv, (bind_lift _ _ eq_refl). cbn [to_string].
  rewrite (bind_lift _ _ eq_refl). unfold bind at 1. cbn [file trace].
  rewrite (bind_ok _ (generateConfigExample_run serverName (info r) snippet _ Hser)).
  unfold bind. cbn [file trace fst snd]. unfold status_lines.
  repeat (rewrite <- app_assoc; cbn [app]). reflexivity.
Qed.

(* ================================================================== *)
(** ** The properties of the specification                             *)
(* ================================================================== *)

(** C1: starting a server whose name is not in the registry should add
    one entry for it.  The action tests [servers[serverName]], which also
    finds what every object inherits: on the empty registry,
    [start constructor] sees [Object.prototype.constructor], reports a
    running server with an undefined pid, spawns nothing and leaves the
    file as it was. *)
Theorem start_inherited_name_reports_running (E : env) :
  lookup "constructor" (@nil (string * ServerRecord)) = None
  /\ holds (World "{}" []) []
  /\ cmd_start E "constructor" (World "{}" [])
     = (Ok tt,
        World "{}"
          [ ReadFile;
            ConsoleLog "Server constructor is already running (PID: undefined)" ]).
Proof. repeat split. Qed.

(** C2: starting a server that is already in the registry changes
    nothing: the action reads the file, prints the already-running message
    with the pid stored for that name, and returns; no write happens, the
    file keeps its content and still holds the same registry. *)
Theorem start_running_server_is_noop
  (E : env) (serverName : string) (reg : registry) (r : ServerRecord) (w : world) :
  holds w reg ->
  lookup serverName reg = Some r ->
  cmd_start E serverName w
  = (Ok tt,
     World (file w)
       (trace w ++
          [ ReadFile;
            ConsoleLog ("Server " ++ serverName ++ " is already running (PID: "
                        ++ pid_text r ++ ")") ]))
  /\ existsb is_write (skipn (List.length (trace w))
                         (trace (snd (cmd_start E serverName w)))) = false
  /\ holds (snd (cmd_start E serverName w)) reg.
Proof.
  intros Hholds Hfind.
  assert (Hrun := start_present_run E serverName reg r w Hholds Hfind).
  rewrite Hrun. cbn [snd trace file]. repeat split.
  - rewrite skipn_app, skipn_all, Nat.sub_diag. reflexivity.
  - exact Hholds.
Qed.

(** C3: when the server is in the registry and [process.kill] throws on
    the stored pid, [stop] prints the failure with the error message on the
    error stream and leaves the registry alone: no write happens, the file
    keeps its content and still holds the same registry. *)
Theorem stop_failed_signal_keeps_registry
  (E : env) (serverName : string) (reg : registry) (r : ServerRecord)
  (w : world) (err : exn) :
  holds w reg ->
  lookup serverName reg = Some r ->
  signal_outcome E (pid_value r) = Throw err ->
  cmd_stop E serverName w
  = (Ok tt,
     World (file w)
       (trace w ++ ReadFile :: signal_events (pid_value r)
          ++ [ConsoleError ("Failed to stop server " ++ serverName ++ ": "
                            ++ error_message E err)]))
  /\ existsb is_write (ReadFile :: signal_events (pid_value r)) = false
  /\ holds (snd (cmd_stop E serverName w)) reg.
Proof.
  intros Hholds Hfind Hsignal.
  assert (Hrun := stop_failed_run E serverName reg r w err Hholds Hfind Hsignal).
  split; [exact Hrun|]. split.
  - apply signal_events_no_write.
  - rewrite Hrun. exact Hholds.
Qed.

(** C4: when the server is in the registry and the signal to the stored
    pid is delivered, [stop] deletes the entry and writes the registry
    without it: the file then holds the registry minus that name, every
    other name keeps its record, and a following [status] of the name
    prints the not-running message.  The registry is one the commands
    write ([registry_ok]). *)
Theorem stop_delivered_signal_removes_entry
  (E : env) (serverName : string) (reg : registry) (r : ServerRecord) (w : world) :
  registry_ok reg = true ->
  holds w reg ->
  lookup serverName reg = Some r ->
  signal_outcome E (pid_value r) = Ok tt ->
  let reg' := delete_property serverName reg in
  exists text,
    cmd_stop E serverName w
    = (Ok tt,
       World text
         (trace w ++ ReadFile :: signal_events (pid_value r)
            ++ [ WriteFile text;
                 ConsoleLog ("Server " ++ serverName ++ " stopped successfully") ]))
    /\ JSON_stringify (registry_value reg') = Some text
    /\ (forall tr, holds (World text tr) reg')
    /\ lookup serverName reg' = None
    /\ (forall other, other <> serverName -> lookup other reg' = lookup other reg)
    /\ (forall tr,
          cmd_status serverName (World text tr)
          = (Ok tt,
             World text
               (tr ++ [ ReadFile;
                        ConsoleLog ("Server " ++ serverName ++ " is not running") ]))).
Proof.
  intros Hok Hholds Hfind Hsignal reg'.
  assert (Hok' := Hok). apply registry_ok_iff in Hok'. destruct Hok' as [Hwf Hinh].
  assert (Hord : property_order (map fst reg) = true)
    by (now apply registry_wf_iff in Hwf).
  assert (Hgone : lookup serverName reg' = None)
    by (now apply lookup_delete_same).
  destruct (stop_delivered_run E serverName reg r w Hwf Hholds Hfind Hsignal)
    as (text & Hrun & Hser & Hparse).
  exists text. repeat split.
  - exact Hrun.
  - exact Hser.
  - intros tr. exact Hparse.
  - exact Hgone.
  - intros other Hne. now apply lookup_delete_other.
  - intros tr. apply status_absent_run with reg'.
    + exact Hparse.
    + exact Hgone.
    + apply Hinh. now apply lookup_names with r.
Qed.

(** C5: stopping a server whose name is not in the registry should print
    the not-running message.  For a name that [Object.prototype] defines
    the action takes the inherited property for a record: on the empty
    registry, [stop constructor] hands an undefined pid to [process.kill]
    and prints the failure message on the error stream (the file is not
    written). *)
Theorem stop_inherited_name_reports_failure (E : env) :
  lookup "constructor" (@nil (string * ServerRecord)) = None
  /\ holds (World "{}" []) []
  /\ cmd_stop E "constructor" (World "{}" [])
     = (Ok tt,
        World "{}"
          [ ReadFile;
            ConsoleError ("Failed to stop server constructor: "
                          ++ error_message E (InvalidPid VUndefined)) ]).
Proof. repeat split. Qed.

(** The descriptor depends on the identifier only, and resolving it
    leaves the file alone. *)
Lemma fetchServerInfo_deterministic (serverName : string) (w1 w2 : world) :
  fst (fetchServerInfo serverName w1) = fst (fetchServerInfo serverName w2)
  /\ file (snd (fetchServerInfo serverName w1)) = file w1.
Proof. now rewrite !fetchServerInfo_run. Qed.

(** C6: for an identifier [scope/name] (one slash), [fetchServerInfo]
    returns the descriptor with command npx, arguments -y and the
    identifier, the identifier as name, the description
    "MCP Server for name" and version 1.0.0.  The result is a function of
    the identifier alone, and the only effect is one console line: the
    file is not touched and nothing else is contacted. *)
Theorem fetchServerInfo_scoped_name (scope name : string) (w : world) :
  contains "/" scope = false ->
  contains "/" name = false ->
  fetchServerInfo (scope ++ "/" ++ name) w
  = (Ok (VObj [ ("name", VStr (scope ++ "/" ++ name));
                ("command", VStr "npx");
                ("args", VArr [VStr "-y"; VStr (scope ++ "/" ++ name)]);
                ("description", VStr ("MCP Server for " ++ name));
                ("version", VStr "1.0.0") ]),
     World (file w)
       (trace w ++
          [ConsoleLog ("Fetching information for " ++ (scope ++ "/" ++ name)
                       ++ " from https://registry.mcpk.io...")])).
Proof.
  intros Hscope Hname. rewrite fetchServerInfo_run.
  unfold fetched_info, info_value.
  cbn [Registry.name command args description version map].
  change (scope ++ "/" ++ name) with (scope ++ String "/" name).
  rewrite split_at_separator, split_no_separator by assumption.
  reflexivity.
Qed.

(** Any JSON value written by [saveRunningServers] is read back by
    [getRunningServers], whatever the shape of its records. *)
Lemma save_then_load_value (v : value) (w : world) :
  is_json v = true ->
  exists w',
    saveRunningServers v w = (Ok tt, w')
    /\ fst (getRunningServers w') = Ok v.
Proof.
  intros Hjson. destruct (JSON_parse_stringify v Hjson) as (text & Hs & Hp).
  exists (World text (trace w ++ [WriteFile text])). split.
  - unfold saveRunningServers. now rewrite Hs.
  - exact Hp.
Qed.

(** C7: a registry written by [saveRunningServers] and read back by
    [getRunningServers] is the same object, and the file holds no other
    registry: same names, same pids, start times and descriptors.  The
    registry is any one an object can hold ([registry_wf]: names listed
    in key order, pids that are safe integers). *)
Theorem save_then_load_registry (reg : registry) (w : world) :
  registry_wf reg = true ->
  exists w',
    saveRunningServers (registry_value reg) w = (Ok tt, w')
    /\ fst (getRunningServers w') = Ok (registry_value reg)
    /\ forall reg', holds w' reg' -> reg' = reg.
Proof.
  intros Hwf. destruct (save_registry reg w Hwf) as (text & _ & Hparse & Hsave).
  exists (World text (trace w ++ [WriteFile text])). repeat split.
  - exact Hsave.
  - exact Hparse.
  - unfold holds. cbn [file]. rewrite Hparse. intros reg' Heq.
    symmetry. apply registry_value_inj. congruence.
Qed.

(** C8: for a server in the registry, the JSON snippet that [status]
    prints is the text of the object
    [{ mcpServers: { key: { command, args } } }] where command and args are
    those of the stored descriptor and [key] is the server name with its
    first at sign removed (a later one stays); [status] only reads the
    file and prints. *)
Theorem status_prints_config_snippet
  (serverName : string) (reg : registry) (r : ServerRecord) (w : world) :
  holds w reg ->
  lookup serverName reg = Some r ->
  exists snippet,
    JSON_stringify (config_object (remove_first "@" serverName) (info r))
    = Some snippet
    /\ JSON_parse snippet
       = Ok (config_object (remove_first "@" serverName) (info r))
    /\ cmd_status serverName w
       = (Ok tt,
          World (file w)
            (trace w ++ ReadFile :: status_lines serverName r snippet))
    /\ existsb is_write (ReadFile :: status_lines serverName r snippet) = false.
Proof.
  intros Hholds Hfind.
  destruct (JSON_parse_stringify _
              (config_object_is_json (remove_first "@" serverName) (info r)))
    as (snippet & Hser & Hparse).
  exists snippet. repeat split; try assumption.
  now apply status_running_run with reg.
Qed.

(** C9: on an empty registry [list] prints only the empty-state message;
    on a registry of N > 0 servers it prints two header lines and then N
    lines, one per server in key order, each made of the name, the stored
    pid and the start time: N + 2 lines in all. *)
Theorem list_prints_header_then_one_line_per_server
  (E : env) (reg : registry) (w : world) :
  holds w reg ->
  cmd_list E w
  = (Ok tt,
     World (file w)
       (trace w ++ ReadFile ::
          match reg with
          | [] => [ConsoleLog "No MCP servers are currently running"]
          | _ =>
              ConsoleLog "Running MCP Servers:"
              :: ConsoleLog "-------------------"
              :: map (fun e =>
                        ConsoleLog
                          (fst e ++ " (PID: " ++ pid_text (snd e) ++ ", Started: "
                             ++ locale_string E (VStr (startTime (snd e))) ++ ")"))
                   reg
          end))
  /\ List.length (printed (snd (cmd_list E w)).(trace))
     = List.length (printed w.(trace))
       + match reg with
         | [] => 1
         | _ => 2 + List.length reg
         end.
Proof.
  intros Hholds.
  assert (Hrun := list_run E reg w Hholds (holds_order w reg Hholds)).
  split.
  - rewrite Hrun. unfold list_output, list_line_text. reflexivity.
  - rewrite Hrun. cbn [snd trace]. unfold printed at 1 2.
    rewrite filter_app, length_app. f_equal.
    unfold list_output. destruct reg as [|e t]; [reflexivity|].
    cbn [filter is_console_log List.length].
    fold (printed (map (fun e0 => ConsoleLog (list_line_text E e0)) (e :: t))).
    now rewrite printed_lines.
Qed.

(** C10: for an identifier without a slash, [fetchServerInfo] still
    returns a descriptor, and its description is
    "MCP Server for undefined": the split has no second piece. *)
Theorem fetchServerInfo_without_slash (serverName : string) (w : world) :
  contains "/" serverName = false ->
  fetchServerInfo serverName w
  = (Ok (VObj [ ("name", VStr serverName);
                ("command", VStr "npx");
                ("args", VArr [VStr "-y"; VStr serverName]);
                ("description", VStr "MCP Server for undefined");
                ("version", VStr "1.0.0") ]),
     World (file w)
       (trace w ++
          [ConsoleLog ("Fetching information for " ++ serverName
                       ++ " from https://registry.mcpk.io...")])).
Proof.
  intros Hname. rewrite fetchServerInfo_run.
  unfold fetched_info, info_value.
  cbn [Registry.name command args description version map].
  rewrite split_no_separator by assumption. reflexivity.
Qed.

(* ================================================================== *)
(** ** The registry file from its creation on                          *)
(* ================================================================== *)

Lemma initialize_missing_file :
  initialize None = Ok (World "{}" [WriteFile "{}"])
  /\ holds (World "{}" [WriteFile "{}"]) []
  /\ registry_ok [] = true.
Proof. repeat split. Qed.

Lemma holds_file (w w' : world) (reg : registry) :
  file w' = file w -> holds w reg -> holds w' reg.
Proof. unfold holds. now intros ->. Qed.

Lemma start_keeps_registry
  (E : env) (serverName : string) (reg : registry) (w : world) :
  env_ok E = true -> holds w reg -> registry_ok reg = true ->
  exists reg',
    holds (snd (cmd_start E serverName w)) reg' /\ registry_ok reg' = true.
Proof.
  intros Henv Hholds Hok.
  destruct (lookup serverName reg) as [r|] eqn:Hfind.
  - exists reg. rewrite (start_present_run E serverName reg r w Hholds Hfind).
    split; [now apply holds_file with w | assumption].
  - destruct (inherited serverName) as [v|] eqn:Hinh.
    + exists reg. rewrite (start_inherited_run E serverName reg v w Hholds Hfind Hinh).
      split; [now apply holds_file with w | assumption].
    + destruct (start_new_run E serverName reg w Hok Hholds Hfind Hinh Henv)
        as (text & Hrun & _ & Hh & Hok' & _).
      eexists. rewrite Hrun. split; [apply Hh | exact Hok'].
Qed.

Lemma stop_keeps_registry
  (E : env) (serverName : string) (reg : registry) (w : world) :
  holds w reg -> registry_ok reg = true ->
  exists reg',
    holds (snd (cmd_stop E serverName w)) reg' /\ registry_ok reg' = true.
Proof.
  intros Hholds Hok.
  destruct (lookup serverName reg) as [r|] eqn:Hfind.
  - destruct (signal_outcome_recorded E r) as [Hsig|(err & Hsig)].
    + assert (Hwf : registry_wf reg = true) by now apply registry_ok_iff in Hok.
      destruct (stop_delivered_run E serverName reg r w Hwf Hholds Hfind Hsig)
        as (text & Hrun & _ & Hparse).
      exists (delete_property serverName reg). rewrite Hrun.
      split; [exact Hparse | now apply delete_keeps_ok].
    + exists reg. rewrite (stop_failed_run E serverName reg r w err Hholds Hfind Hsig).
      split; [now apply holds_file with w | assumption].
  - exists reg. destruct (inherited serverName) as [v|] eqn:Hinh.
    + rewrite (stop_inherited_run E serverName reg v w Hholds Hfind Hinh).
      split; [now apply holds_file with w | assumption].
    + rewrite (stop_absent_run E serverName reg w Hholds Hfind Hinh).
      split; [now apply holds_file with w | assumption].
Qed.

Lemma status_keeps_file (serverName : string) (reg : registry) (w : world) :
  holds w reg -> file (snd (cmd_status serverName w)) = file w.
Proof.
  intros Hholds. destruct (lookup serverName reg) as [r|] eqn:Hfind.
  - destruct (JSON_parse_stringify _
                (config_object_is_json (remove_first "@" serverName) (info r)))
      as (snippet & Hser & _).
    now rewrite (status_running_run serverName reg r snippet w Hholds Hfind Hser).
  - destruct (inherited serverName) as [v|] eqn:Hinh.
    + now rewrite (status_inherited_run serverName reg v w Hholds Hfind Hinh).
    + now rewrite (status_absent_run serverName reg w Hholds Hfind Hinh).
Qed.

Lemma list_keeps_file (E : env) (reg : registry) (w : world) :
  holds w reg -> file (snd (cmd_list E w)) = file w.
Proof.
  intros Hholds. now rewrite (list_run E reg w Hholds (holds_order w reg Hholds)).
Qed.

(** Whatever commands have run since the file was created, it holds a
    registry with names in key order, none of them inherited, and safe
    pids. *)
Theorem reachable_registry_ok (w : world) :
  reachable w -> exists reg, holds w reg /\ registry_ok reg = true.
Proof.
  induction 1 as [ | E serverName w Henv _ (reg & Hh & Hok)
                   | E serverName w _ (reg & Hh & Hok)
                   | serverName w _ (reg & Hh & Hok)
                   | E w _ (reg & Hh & Hok) ].
  - exists []. now split.
  - now apply start_keeps_registry with reg.
  - now apply stop_keeps_registry with reg.
  - exists reg. split; [|assumption].
    apply holds_file with w; [|assumption]. now apply status_keeps_file with reg.
  - exists reg. split; [|assumption].
    apply holds_file with w; [|assumption]. now apply list_keeps_file with reg.
Qed.

(* ================================================================== *)
(** ** The properties on a concrete registry                           *)
(* ================================================================== *)

Lemma start_running_server_is_noop_witness :
  holds demo_world demo_registry
  /\ lookup "alice/demo" demo_registry = Some (demo_record "alice/demo" 4242)
  /\ cmd_start demo_env "alice/demo" demo_world
     = (Ok tt,
        World (file demo_world)
          (trace demo_world ++
             [ ReadFile;
               ConsoleLog ("Server " ++ "alice/demo" ++ " is already running (PID: "
                           ++ pid_text (demo_record "alice/demo" 4242) ++ ")") ])).
Proof.
  assert (H1 : holds demo_world demo_registry) by (vm_compute; reflexivity).
  assert (H2 : lookup "alice/demo" demo_registry
               = Some (demo_record "alice/demo" 4242)) by reflexivity.
  split; [exact H1|]. split; [exact H2|].
  exact (proj1 (start_running_server_is_noop demo_env "alice/demo" demo_registry
                  (demo_record "alice/demo" 4242) demo_world H1 H2)).
Defined.

Lemma stop_failed_signal_keeps_registry_witness :
  holds demo_world demo_registry
  /\ lookup "7" demo_registry = Some (demo_record "7" 311)
  /\ signal_outcome demo_env (pid_value (demo_record "7" 311))
     = Throw (KillFailed 311)
  /\ cmd_stop demo_env "7" demo_world
     = (Ok tt,
        World (file demo_world)
          (trace demo_world ++ ReadFile :: signal_events (pid_value (demo_record "7" 311))
             ++ [ConsoleError ("Failed to stop server " ++ "7" ++ ": "
                               ++ error_message demo_env (KillFailed 311))])).
Proof.
  assert (H1 : holds demo_world demo_registry) by (vm_compute; reflexivity).
  assert (H2 : lookup "7" demo_registry = Some (demo_record "7" 311))
    by reflexivity.
  assert (H3 : signal_outcome demo_env (pid_value (demo_record "7" 311))
               = Throw (KillFailed 311)) by reflexivity.
  split; [exact H1|]. split; [exact H2|]. split; [exact H3|].
  exact (proj1 (stop_failed_signal_keeps_registry demo_env "7" demo_registry
                  (demo_record "7" 311) demo_world (KillFailed 311) H1 H2 H3)).
Defined.

Lemma stop_delivered_signal_removes_entry_witness :
  registry_ok demo_registry = true
  /\ holds demo_world demo_registry
  /\ lookup "alice/demo" demo_registry = Some (demo_record "alice/demo" 4242)
  /\ signal_outcome demo_env (pid_value (demo_record "alice/demo" 4242)) = Ok tt
  /\ exists text,
       cmd_stop demo_env "alice/demo" demo_world
       = (Ok tt,
          World text
            (trace demo_world ++ ReadFile
               :: signal_events (pid_value (demo_record "alice/demo" 4242))
               ++ [ WriteFile text;
                    ConsoleLog ("Server " ++ "alice/demo" ++ " stopped successfully") ]))
       /\ lookup "alice/demo" (delete_property "alice/demo" demo_registry) = None.
Proof.
  assert (H0 : registry_ok demo_registry = true) by (vm_compute; reflexivity).
  assert (H1 : holds demo_world demo_registry) by (vm_compute; reflexivity).
  assert (H2 : lookup "alice/demo" demo_registry
               = Some (demo_record "alice/demo" 4242)) by reflexivity.
  assert (H3 : signal_outcome demo_env (pid_value (demo_record "alice/demo" 4242))
               = Ok tt) by reflexivity.
  split; [exact H0|]. split; [exact H1|]. split; [exact H2|]. split; [exact H3|].
  destruct (stop_delivered_signal_removes_entry demo_env "alice/demo" demo_registry
              (demo_record "alice/demo" 4242) demo_world H0 H1 H2 H3)
    as (text & Hrun & _ & _ & Hgone & _).
  exists text. split; [exact Hrun | exact Hgone].
Defined.

Lemma fetchServerInfo_scoped_name_witness :
  contains "/" "alice" = false
  /\ contains "/" "demo" = false
  /\ fst (fetchServerInfo "alice/demo" demo_world)
     = Ok (VObj [ ("name", VStr "alice/demo");
                  ("command", VStr "npx");
                  ("args", VArr [VStr "-y"; VStr "alice/demo"]);
                  ("description", VStr "MCP Server for demo");
                  ("version", VStr "1.0.0") ]).
Proof.
  assert (H1 : contains "/" "alice" = false) by reflexivity.
  assert (H2 : contains "/" "demo" = false) by reflexivity.
  split; [exact H1|]. split; [exact H2|].
  exact (f_equal fst (fetchServerInfo_scoped_name "alice" "demo" demo_world H1 H2)).
Defined.

Lemma fetchServerInfo_without_slash_witness :
  contains "/" "demo" = false
  /\ fst (fetchServerInfo "demo" demo_world)
     = Ok (VObj [ ("name", VStr "demo");
                  ("command", VStr "npx");
                  ("args", VArr [VStr "-y"; VStr "demo"]);
                  ("description", VStr "MCP Server for undefined");
                  ("version", VStr "1.0.0") ]).
Proof.
  assert (H1 : contains "/" "demo" = false) by reflexivity.
  split; [exact H1|].
  exact (f_equal fst (fetchServerInfo_without_slash "demo" demo_world H1)).
Defined.

Lemma save_then_load_registry_witness :
  registry_wf demo_registry = true
  /\ exists w',
       saveRunningServers (registry_value demo_registry) (World "{}" [])
       = (Ok tt, w')
       /\ fst (getRunningServers w') = Ok (registry_value demo_registry).
Proof.
  assert (H1 : registry_wf demo_registry = true) by (vm_compute; reflexivity).
  split; [exact H1|].
  destruct (save_then_load_registry demo_registry (World "{}" []) H1)
    as (w' & Hsave & Hload & _).
  exists w'. split; [exact Hsave | exact Hload].
Defined.

Lemma status_prints_config_snippet_witness :
  holds demo_world demo_registry
  /\ lookup "@acme/server@1.2.3" demo_registry = Some (demo_record "@acme/server@1.2.3" 77)
  /\ exists snippet,
       JSON_parse snippet
       = Ok (config_object "acme/server@1.2.3" (info (demo_record "@acme/server@1.2.3" 77)))
       /\ cmd_status "@acme/server@1.2.3" demo_world
          = (Ok tt,
             World (file demo_world)
               (trace demo_world ++ ReadFile
                  :: status_lines "@acme/server@1.2.3" (demo_record "@acme/server@1.2.3" 77) snippet)).
Proof.
  assert (H1 : holds demo_world demo_registry) by (vm_compute; reflexivity).
  assert (H2 : lookup "@acme/server@1.2.3" demo_registry = Some (demo_record "@acme/server@1.2.3" 77))
    by reflexivity.
  split; [exact H1|]. split; [exact H2|].
  destruct (status_prints_config_snippet "@acme/server@1.2.3" demo_registry
              (demo_record "@acme/server@1.2.3" 77) demo_world H1 H2)
    as (snippet & _ & Hparse & Hrun & _).
  exists snippet. split; [exact Hparse | exact Hrun].
Defined.

Lemma list_prints_header_then_one_line_per_server_witness :
  holds demo_world demo_registry
  /\ List.length (printed (snd (cmd_list demo_env demo_world)).(trace)) = 5.
Proof.
  assert (H1 : holds demo_world demo_registry) by (vm_compute; reflexivity).
  split; [exact H1|].
  exact (proj2 (list_prints_header_then_one_line_per_server
                  demo_env demo_registry demo_world H1)).
Defined.

(** The scenario of the specification: [start alice/demo] on the empty
    registry records the server with its descriptor, [stop alice/demo]
    empties the registry again. *)
Example start_then_stop_alice_demo :
  let w1 := snd (cmd_start demo_env "alice/demo" (World "{}" [])) in
  holds w1 single_registry
  /\ file (snd (cmd_stop demo_env "alice/demo" w1)) = "{}".
Proof. split; vm_compute; reflexivity. Qed.

(** A scoped package with a version has two at signs; the snippet
    printed for it still has the second one: it is not the object keyed by
    the name without at signs. *)
Lemma status_snippet_keeps_later_at_sign :
  holds demo_world demo_registry
  /\ lookup "@acme/server@1.2.3" demo_registry = Some (demo_record "@acme/server@1.2.3" 77)
  /\ without_at "@acme/server@1.2.3" = "acme/server1.2.3"
  /\ config_object "acme/server@1.2.3" (info (demo_record "@acme/server@1.2.3" 77))
     <> config_object (without_at "@acme/server@1.2.3") (info (demo_record "@acme/server@1.2.3" 77))
  /\ nth_error (trace (snd (cmd_status "@acme/server@1.2.3" demo_world))) 10
     = Some (ConsoleLog
               (json_text (config_object "acme/server@1.2.3" (info (demo_record "@acme/server@1.2.3" 77)))))
  /\ ~ In (ConsoleLog
             (json_text (config_object (without_at "@acme/server@1.2.3")
                           (info (demo_record "@acme/server@1.2.3" 77)))))
          (trace (snd (cmd_status "@acme/server@1.2.3" demo_world))).
Proof.
  split; [vm_compute; reflexivity|]. split; [reflexivity|].
  split; [reflexivity|]. split; [discriminate|].
  split; [vm_compute; reflexivity|].
  vm_compute. intros H.
  repeat (destruct H as [H|H]; [discriminate H|]). exact H.
Qed.

(** With one server recorded, [cmd_list] prints three lines, not one. *)
Lemma list_prints_more_lines_than_servers :
  holds single_world single_registry
  /\ List.length single_registry = 1
  /\ List.length (printed (trace (snd (cmd_list demo_env single_world)))) = 3
  /\ List.length (printed (trace (snd (cmd_list demo_env single_world))))
     <> List.length single_registry.
Proof.
  split; [vm_compute; reflexivity|]. split; [reflexivity|].
  split; [vm_compute; reflexivity|]. vm_compute. discriminate.
Qed.

(* ================================================================== *)
(** ** What [JSON.parse] returns                                       *)
(* ================================================================== *)

Import Config.

Lemma parse_number_safe (s rest : string) (v : value) :
  parse_number s = Ok (v, rest) -> is_json v = true.
Proof.
  unfold parse_number.
  destruct (match s with
            | String c r => if Ascii.eqb c "-" then (true, r) else (false, s)
            | EmptyString => (false, s)
            end) as [negative s1].
  destruct (parse_int s1) as [[n r]| |]; cbn [rbind]; try discriminate.
  destruct (continues_number r); [discriminate|].
  destruct (negative && (n =? 0)%N); [discriminate|].
  destruct (safe_integer _) eqn:Hsafe; [|discriminate].
  intros [= <- _]. exact Hsafe.
Qed.

Lemma members_json (ms : list (string * value)) :
  forallb (fun '(_, x) => is_json x) ms = true ->
  is_json (VObj (object_of_entries ms)) = true.
Proof.
  intros Hms. cbn [is_json]. rewrite object_of_entries_order. cbn [andb].
  apply forallb_forall. intros [k x] Hin.
  apply object_of_entries_members in Hin.
  rewrite forallb_forall in Hms. apply (Hms (k, x) Hin).
Qed.

(** Whatever the three parsers return is made of JSON values. *)
Lemma parsers_return_json (fuel : nat) :
  (forall s v r, parse_value fuel s = Ok (v, r) -> is_json v = true)
  /\ (forall s vs r, parse_elements fuel s = Ok (vs, r) ->
        forallb is_json vs = true)
  /\ (forall s ms r, parse_members fuel s = Ok (ms, r) ->
        forallb (fun '(_, x) => is_json x) ms = true).
Proof.
  induction fuel as [|f (IHv & IHe & IHm)];
    [repeat split; intros; discriminate|].
  repeat split.
  - intros s v r. cbn [parse_value].
    destruct (skip_ws s) as [|c t]; [discriminate|].
    destruct (Ascii.eqb c "{").
    { destruct (expect "}" t); [now intros [= <- _]|].
      destruct (parse_members f t) as [[ms r']| |] eqn:Hm; cbn [rbind];
        try discriminate.
      intros [= <- _]. apply members_json. now apply IHm with t r'. }
    destruct (Ascii.eqb c "[").
    { destruct (expect "]" t); [now intros [= <- _]|].
      destruct (parse_elements f t) as [[vs r']| |] eqn:He; cbn [rbind];
        try discriminate.
      intros [= <- _]. cbn [is_json]. now apply IHe with t r'. }
    destruct (Ascii.eqb c dquote).
    { destruct (parse_string t) as [[str r']| |]; cbn [rbind]; try discriminate.
      now intros [= <- _]. }
    destruct (Ascii.eqb c "t").
    { intros H. apply parse_literal_value in H. now subst. }
    destruct (Ascii.eqb c "f").
    { intros H. apply parse_literal_value in H. now subst. }
    destruct (Ascii.eqb c "n").
    { intros H. apply parse_literal_value in H. now subst. }
    destruct (Ascii.eqb c "-" || is_digit c); [|discriminate].
    apply parse_number_safe.
  - intros s vs r. cbn [parse_elements].
    destruct (parse_value f s) as [[v r1]| |] eqn:Hv; cbn [rbind];
      try discriminate.
    assert (Hjson : is_json v = true) by now apply IHv with s r1.
    destruct (expect "," r1) as [r2|].
    + destruct (parse_elements f r2) as [[vs' r3]| |] eqn:He; cbn [rbind];
        try discriminate.
      intros [= <- _]. cbn [forallb]. rewrite Hjson. now apply IHe with r2 r3.
    + destruct (expect "]" r1); [|discriminate].
      intros [= <- _]. cbn [forallb]. now rewrite Hjson.
  - intros s ms r. cbn [parse_members].
    destruct (expect dquote s) as [t|]; [|discriminate].
    destruct (parse_string t) as [[k r1]| |]; cbn [rbind]; try discriminate.
    destruct (expect ":" r1) as [r2|]; [|discriminate].
    destruct (parse_value f r2) as [[v r3]| |] eqn:Hv; cbn [rbind];
      try discriminate.
    assert (Hjson : is_json v = true) by now apply IHv with r2 r3.
    destruct (expect "," r3) as [r4|].
    + destruct (parse_members f r4) as [[ms' r5]| |] eqn:Hm; cbn [rbind];
        try discriminate.
      intros [= <- _]. cbn [forallb]. rewrite Hjson. now apply IHm with r4 r5.
    + destruct (expect "}" r3); [|discriminate].
      intros [= <- _]. cbn [forallb]. now rewrite Hjson.
Qed.

Lemma JSON_parse_is_json (text : string) (v : value) :
  JSON_parse text = Ok v -> is_json v = true.
Proof.
  unfold JSON_parse.
  destruct (parse_value (S (String.length text)) text) as [[v' rest]| |] eqn:Hp;
    cbn [rbind]; try discriminate.
  destruct (skip_ws rest); [|discriminate]. intros [= <-].
  exact (proj1 (parsers_return_json (S (String.length text))) text v' rest Hp).
Qed.

(* ================================================================== *)
(** ** Further properties of the registry store and the commands       *)
(* ================================================================== *)


Lemma load_throws (w : world) (e : exn) :
  JSON_parse (file w) = Throw e ->
  getRunningServers w = (Throw e, World (file w) (trace w ++ [ReadFile])).
Proof. intros H. unfold getRunningServers. now rewrite H. Qed.

(** X2: a registry file that [JSON.parse] rejects stops every command at
    its first step: the exception leaves the action (the [try] of [stop]
    does not cover the read), nothing is printed, spawned, signalled or
    written. *)
Theorem corrupt_registry_stops_every_command
  (E : env) (serverName : string) (w : world) (e : exn) :
  JSON_parse (file w) = Throw e ->
  let failed := (@Throw unit e, World (file w) (trace w ++ [ReadFile])) in
  cmd_start E serverName w = failed
  /\ cmd_stop E serverName w = failed
  /\ cmd_status serverName w = failed
  /\ cmd_list E w = failed.
Proof.
  intros Hparse failed. unfold failed.
  assert (Hload := load_throws w e Hparse).
  unfold cmd_start, cmd_stop, cmd_status, cmd_list.
  now rewrite !(bind_throw _ Hload).
Qed.

(** *** Computations that leave the file alone *)

Lemma quiet_ret (A : Type) (a : A) : quiet (ret a).
Proof. intros w. split; [reflexivity|]. exists []. now rewrite app_nil_r. Qed.

Lemma quiet_lift (A : Type) (r : result A) : quiet (lift r).
Proof. intros w. split; [reflexivity|]. exists []. now rewrite app_nil_r. Qed.

Lemma quiet_emit (e : event) : is_write e = false -> quiet (emit e).
Proof.
  intros He w. split; [reflexivity|]. exists [e]. split; [reflexivity|].
  cbn. now rewrite He.
Qed.

Lemma quiet_load : quiet getRunningServers.
Proof. intros w. split; [reflexivity|]. now exists [ReadFile]. Qed.

Lemma quiet_bind (A B : Type) (m : M A) (k : A -> M B) :
  quiet m -> (forall a, quiet (k a)) -> quiet (bind m k).
Proof.
  intros Hm Hk w. destruct (Hm w) as (Hf & tr & Ht & Hw). unfold bind.
  destruct (m w) as [[a| e |] w1]; cbn [snd] in *.
  - destruct (Hk a w1) as (Hf' & tr' & Ht' & Hw'). split; [congruence|].
    exists (tr ++ tr')%list. split.
    + now rewrite Ht', Ht, app_assoc.
    + now rewrite existsb_app, Hw, Hw'.
  - split; [assumption|]. now exists tr.
  - split; [assumption|]. now exists tr.
Qed.

Lemma quiet_for_each (A : Type) (f : A -> M unit) (l : list A) :
  (forall a, quiet (f a)) -> quiet (for_each l f).
Proof.
  intros Hf. induction l as [|x t IH]; cbn [for_each].
  - apply quiet_ret.
  - apply quiet_bind; [apply Hf | intros _; exact IH].
Qed.

Ltac quiet_steps :=
  repeat first
    [ apply quiet_ret
    | apply quiet_lift
    | apply quiet_load
    | apply quiet_emit; reflexivity
    | apply quiet_bind; [|intros ?]
    | match goal with
      | |- quiet (if ?b then _ else _) => destruct b
      end ].

Lemma quiet_generateConfigExample (serverName : string) (serverInfo : value) :
  quiet (generateConfigExample serverName serverInfo).
Proof. unfold generateConfigExample. quiet_steps. Qed.

Lemma quiet_status (serverName : string) : quiet (cmd_status serverName).
Proof.
  unfold cmd_status, console_log. quiet_steps.
Qed.

Lemma quiet_list (E : env) : quiet (cmd_list E).
Proof.
  unfold cmd_list, console_log. quiet_steps.
  apply quiet_for_each. intros name. unfold list_line, console_log. quiet_steps.
Qed.

(** X3: [status] and [list] never write.  Whatever the registry file
    contains (a registry, other JSON, or text that does not parse) and
    however the command ends (normally or by an exception), the file has
    the same content afterwards and the effects added hold no write. *)
Theorem status_and_list_never_write (E : env) (serverName : string) (w : world) :
  (file (snd (cmd_status serverName w)) = file w
   /\ exists tr,
        trace (snd (cmd_status serverName w)) = (trace w ++ tr)%list
        /\ existsb is_write tr = false)
  /\ (file (snd (cmd_list E w)) = file w
      /\ exists tr,
           trace (snd (cmd_list E w)) = (trace w ++ tr)%list
           /\ existsb is_write tr = false).
Proof. split; [apply quiet_status | apply quiet_list]. Qed.

(** *** How the commands compose *)

Section DeleteDefined.
Variable A : Type.
Implicit Types (ps : list (string * A)) (k : string) (v : A).

Lemma delete_insert_index n k v ps :
  lookup k ps = None -> delete_property k (insert_index n k v ps) = ps.
Proof.
  induction ps as [|[k' v'] t IH]; cbn [insert_index lookup delete_property].
  - now rewrite String.eqb_refl.
  - destruct (String.eqb_spec k' k) as [->|Hne]; [discriminate|]. intros Hl.
    destruct (array_index k') as [m|]; [destruct (m <? n)%N|];
      cbn [delete_property]; rewrite ?String.eqb_refl; try reflexivity.
    destruct (String.eqb_spec k' k); [contradiction|]. now rewrite IH.
Qed.

Lemma delete_appended k v ps :
  lookup k ps = None -> delete_property k (ps ++ [(k, v)]) = ps.
Proof.
  induction ps as [|[k' v'] t IH]; cbn [app lookup delete_property].
  - now rewrite String.eqb_refl.
  - destruct (String.eqb_spec k' k) as [->|Hne]; [discriminate|]. intros Hl.
    now rewrite IH.
Qed.

(** Deleting a key that was just defined on an object without it gives
    the object back, in the same order. *)
Lemma delete_define_new k v ps :
  lookup k ps = None -> delete_property k (define_property ps k v) = ps.
Proof.
  intros Hl. unfold define_property. rewrite Hl.
  destruct (array_index k) as [n|].
  - now apply delete_insert_index.
  - now apply delete_appended.
Qed.

End DeleteDefined.

(** X4: for a name that is neither recorded nor a property of
    [Object.prototype], [start] fetches the descriptor, spawns npx once,
    adds exactly one entry (the spawn's pid when there is one, the current
    time, the fetched descriptor), writes the registry once, keeps every
    other entry, and a following [list] prints a line for the new
    server. *)
Theorem start_records_new_server
  (E : env) (serverName : string) (reg : registry) (w : world) :
  registry_ok reg = true ->
  holds w reg ->
  lookup serverName reg = None ->
  inherited serverName = None ->
  env_ok E = true ->
  let r := {| pid := spawn_pid E; startTime := now_iso E;
              info := fetched_info serverName |} in
  let reg' := define_property reg serverName r in
  exists text,
    cmd_start E serverName w
    = (Ok tt,
       World text
         (trace w ++
            [ ReadFile;
              ConsoleLog ("Fetching information for " ++ serverName
                          ++ " from https://registry.mcpk.io...");
              ConsoleLog ("Starting " ++ serverName ++ "...");
              Spawn (VStr "npx") (VArr [VStr "-y"; VStr serverName]);
              WriteFile text;
              ConsoleLog ("Server " ++ serverName ++ " started successfully (PID: "
                          ++ pid_text r ++ ")") ]))
    /\ (forall tr, holds (World text tr) reg')
    /\ registry_ok reg' = true
    /\ lookup serverName reg' = Some r
    /\ (forall other, other <> serverName -> lookup other reg' = lookup other reg)
    /\ List.length reg' = S (List.length reg)
    /\ (forall E' tr,
          In (ConsoleLog (list_line_text E' (serverName, r)))
             (trace (snd (cmd_list E' (World text tr))))).
Proof.
  intros Hok Hholds Hfind Hinh Henv r reg'.
  destruct (start_new_run E serverName reg w Hok Hholds Hfind Hinh Henv)
    as (text & Hrun & _ & Hh & Hok' & Hnew & Hother & Hlen).
  exists text. repeat split; try assumption.
  intros E' tr.
  rewrite (list_run E' _ _ (Hh tr) (holds_order _ _ (Hh tr))). cbn [snd trace].
  apply in_or_app. right. right.
  apply list_output_shows. now apply lookup_Some_In.
Qed.

(** X5: for a name that is neither recorded nor a property of
    [Object.prototype], [stop] and [status] only read the file and print
    the not-running line; they signal nothing and write nothing. *)
Theorem stop_and_status_of_unknown_name
  (E : env) (serverName : string) (reg : registry) (w : world) :
  holds w reg ->
  lookup serverName reg = None ->
  inherited serverName = None ->
  let answer :=
    (Ok tt,
     World (file w)
       (trace w ++
          [ReadFile; ConsoleLog ("Server " ++ serverName ++ " is not running")])) in
  cmd_stop E serverName w = answer /\ cmd_status serverName w = answer.
Proof.
  intros Hholds Hfind Hinh answer. split.
  - now apply stop_absent_run with reg.
  - now apply status_absent_run with reg.
Qed.

(** X6: [start] followed by a [stop] whose signal is delivered gives the
    registry back: the file holds exactly the registry it held before the
    start, with the same names in the same order. *)
Theorem start_then_stop_restores_registry
  (E E' : env) (serverName : string) (reg : registry) (w : world) (p : Z) :
  registry_ok reg = true ->
  holds w reg ->
  lookup serverName reg = None ->
  inherited serverName = None ->
  spawn_pid E = Some p ->
  safe_integer p = true ->
  signal_outcome E' (VNum p) = Ok tt ->
  let w1 := snd (cmd_start E serverName w) in
  fst (cmd_stop E' serverName w1) = Ok tt
  /\ holds (snd (cmd_stop E' serverName w1)) reg
  /\ JSON_stringify (registry_value reg)
     = Some (file (snd (cmd_stop E' serverName w1))).
Proof.
  intros Hok Hholds Hfind Hinh Hspawn Hsafe Hsignal w1.
  assert (Henv : env_ok E = true) by (unfold env_ok; now rewrite Hspawn).
  destruct (start_new_run E serverName reg w Hok Hholds Hfind Hinh Henv)
    as (text & Hrun & _ & Hh & Hok' & Hnew & _).
  set (r := {| pid := spawn_pid E; startTime := now_iso E;
               info := fetched_info serverName |}) in *.
  assert (Hw1 : w1 = World text (trace (snd (cmd_start E serverName w))))
    by (unfold w1; now rewrite Hrun).
  assert (Hwf' : registry_wf (define_property reg serverName r) = true)
    by now apply registry_ok_iff in Hok'.
  assert (Hsig : signal_outcome E' (pid_value r) = Ok tt)
    by (unfold pid_value, r; cbn [pid]; now rewrite Hspawn).
  destruct (stop_delivered_run E' serverName _ r w1 Hwf'
              ltac:(rewrite Hw1; apply Hh) Hnew Hsig)
    as (text' & Hstop & Hser & Hparse).
  rewrite delete_define_new in Hser, Hparse by assumption.
  rewrite Hstop. cbn [fst snd file]. repeat split; assumption.
Qed.

(** X7: a second [start] of the same name spawns nothing and writes
    nothing: it reports the server as running with the pid of the first
    start, and the file keeps the content the first start wrote. *)
Theorem second_start_is_refused
  (E E' : env) (serverName : string) (reg : registry) (w : world) :
  registry_ok reg = true ->
  holds w reg ->
  lookup serverName reg = None ->
  inherited serverName = None ->
  env_ok E = true ->
  let w1 := snd (cmd_start E serverName w) in
  cmd_start E' serverName w1
  = (Ok tt,
     World (file w1)
       (trace w1 ++
          [ ReadFile;
            ConsoleLog ("Server " ++ serverName ++ " is already running (PID: "
                        ++ match spawn_pid E with
                           | Some p => string_of_Z p
                           | None => "undefined"
                           end ++ ")") ])).
Proof.
  intros Hok Hholds Hfind Hinh Henv w1.
  destruct (start_new_run E serverName reg w Hok Hholds Hfind Hinh Henv)
    as (text & Hrun & _ & Hh & _ & Hnew & _).
  assert (Hw1 : holds w1 (define_property reg serverName
                            {| pid := spawn_pid E; startTime := now_iso E;
                               info := fetched_info serverName |})).
  { unfold w1. rewrite Hrun. apply Hh. }
  now rewrite (start_present_run E' serverName _ _ w1 Hw1 Hnew).
Qed.

(** X8: when the spawn yields no pid, [start] still records the server,
    without a pid, and reports success with an undefined pid.  No [stop]
    can remove that entry: [process.kill] refuses the missing pid whatever
    the operating system would answer, the failure is printed and the
    registry stays as it is. *)
Theorem entry_without_pid_cannot_be_stopped
  (E E' : env) (serverName : string) (reg : registry) (w : world) :
  registry_ok reg = true ->
  holds w reg ->
  lookup serverName reg = None ->
  inherited serverName = None ->
  spawn_pid E = None ->
  let r := {| pid := None; startTime := now_iso E;
              info := fetched_info serverName |} in
  let w1 := snd (cmd_start E serverName w) in
  fst (cmd_start E serverName w) = Ok tt
  /\ holds w1 (define_property reg serverName r)
  /\ cmd_stop E' serverName w1
     = (Ok tt,
        World (file w1)
          (trace w1 ++
             [ ReadFile;
               ConsoleError ("Failed to stop server " ++ serverName ++ ": "
                             ++ error_message E' (InvalidPid VUndefined)) ])).
Proof.
  intros Hok Hholds Hfind Hinh Hspawn r w1.
  assert (Henv : env_ok E = true) by (unfold env_ok; now rewrite Hspawn).
  destruct (start_new_run E serverName reg w Hok Hholds Hfind Hinh Henv)
    as (text & Hrun & _ & Hh & _ & Hnew & _).
  rewrite Hspawn in Hh, Hnew. fold r in Hh, Hnew.
  assert (Hw1 : holds w1 (define_property reg serverName r))
    by (unfold w1; rewrite Hrun; apply Hh).
  split; [now rewrite Hrun|]. split; [exact Hw1|].
  rewrite (stop_failed_run E' serverName _ r w1 (InvalidPid VUndefined) Hw1 Hnew
             eq_refl).
  cbn [pid_value r pid signal_events app]. reflexivity.
Qed.

(** X18: a second [stop] after a delivered one finds the server gone:
    it prints the not-running line, signals nothing and writes nothing. *)
Theorem second_stop_finds_nothing
  (E E' : env) (serverName : string) (reg : registry) (r : ServerRecord) (w : world) :
  registry_ok reg = true ->
  holds w reg ->
  lookup serverName reg = Some r ->
  signal_outcome E (pid_value r) = Ok tt ->
  let w1 := snd (cmd_stop E serverName w) in
  cmd_stop E' serverName w1
  = (Ok tt,
     World (file w1)
       (trace w1 ++
          [ReadFile; ConsoleLog ("Server " ++ serverName ++ " is not running")])).
Proof.
  intros Hok Hholds Hfind Hsignal w1.
  assert (Hok' := Hok). apply registry_ok_iff in Hok'. destruct Hok' as [Hwf Hinh].
  destruct (stop_delivered_run E serverName reg r w Hwf Hholds Hfind Hsignal)
    as (text & Hrun & _ & Hparse).
  assert (Hw1 : holds w1 (delete_property serverName reg))
    by (unfold w1; rewrite Hrun; exact Hparse).
  apply stop_absent_run with (delete_property serverName reg).
  - exact Hw1.
  - apply lookup_delete_same. now apply registry_wf_iff in Hwf.
  - apply Hinh. now apply lookup_names with r.
Qed.

(** X9: the names that [Object.prototype] defines ([constructor],
    [toString], [__proto__], ...) can never be managed.  When such a name
    is not recorded, [start] reports it as running with an undefined pid,
    [stop] reports a failed stop and [status] throws on the missing
    descriptor after four lines; none of them spawns, signals or writes,
    and this holds for every registry. *)
Theorem inherited_names_are_unmanageable
  (E : env) (serverName : string) (v : value) (reg : registry) (w : world) :
  holds w reg ->
  lookup serverName reg = None ->
  inherited serverName = Some v ->
  cmd_start E serverName w
  = (Ok tt,
     World (file w)
       (trace w ++
          [ ReadFile;
            ConsoleLog ("Server " ++ serverName
                        ++ " is already running (PID: undefined)") ]))
  /\ cmd_stop E serverName w
     = (Ok tt,
        World (file w)
          (trace w ++
             [ ReadFile;
               ConsoleError ("Failed to stop server " ++ serverName ++ ": "
                             ++ error_message E (InvalidPid VUndefined)) ]))
  /\ cmd_status serverName w
     = (Throw (NullDereference "description"),
        World (file w)
          (trace w ++
             [ ReadFile;
               ConsoleLog ("Server: " ++ serverName);
               ConsoleLog "Status: Running";
               ConsoleLog "PID: undefined";
               ConsoleLog "Started: undefined" ])).
Proof.
  intros Hholds Hfind Hinh. repeat split.
  - now apply start_inherited_run with reg v.
  - now apply stop_inherited_run with reg v.
  - now apply status_inherited_run with reg v.
Qed.

(** X10: only the second piece of the identifier reaches the description.
    For [scope/name/rest] the description is "MCP Server for name": what
    follows a second slash is dropped, while name and arguments keep the
    whole identifier. *)
Theorem fetchServerInfo_ignores_later_pieces
  (scope name rest : string) (w : world) :
  contains "/" scope = false ->
  contains "/" name = false ->
  let serverName := scope ++ "/" ++ name ++ "/" ++ rest in
  fst (fetchServerInfo serverName w)
  = Ok (VObj [ ("name", VStr serverName);
               ("command", VStr "npx");
               ("args", VArr [VStr "-y"; VStr serverName]);
               ("description", VStr ("MCP Server for " ++ name));
               ("version", VStr "1.0.0") ]).
Proof.
  intros Hscope Hname serverName.
  rewrite fetchServerInfo_run. cbn [fst].
  unfold fetched_info, info_value.
  cbn [Registry.name command args description version map].
  unfold serverName.
  change (scope ++ "/" ++ name ++ "/" ++ rest)
    with (scope ++ String "/" (name ++ String "/" rest)).
  rewrite !split_at_separator by assumption. reflexivity.
Qed.

(** X11: [status] after [start] shows what the start recorded: the pid
    of the spawn, the time of the start, the description and version of
    the fetched descriptor, and snippets that run npx with -y and the
    server name. *)
Theorem status_after_start
  (E : env) (serverName : string) (reg : registry) (w : world) :
  registry_ok reg = true ->
  holds w reg ->
  lookup serverName reg = None ->
  inherited serverName = None ->
  env_ok E = true ->
  let r := {| pid := spawn_pid E; startTime := now_iso E;
              info := fetched_info serverName |} in
  let w1 := snd (cmd_start E serverName w) in
  exists snippet,
    JSON_parse snippet
    = Ok (VObj [ ("mcpServers",
                  VObj [ (remove_first "@" serverName,
                          VObj [ ("command", VStr "npx");
                                 ("args", VArr [VStr "-y"; VStr serverName]) ]) ]) ])
    /\ cmd_status serverName w1
       = (Ok tt,
          World (file w1) (trace w1 ++ ReadFile :: status_lines serverName r snippet)).
Proof.
  intros Hok Hholds Hfind Hinh Henv r w1.
  destruct (start_new_run E serverName reg w Hok Hholds Hfind Hinh Henv)
    as (text & Hrun & _ & Hh & _ & Hnew & _).
  fold r in Hh, Hnew.
  assert (Hw1 : holds w1 (define_property reg serverName r))
    by (unfold w1; rewrite Hrun; apply Hh).
  destruct (JSON_parse_stringify _
              (config_object_is_json (remove_first "@" serverName) (info r)))
    as (snippet & Hser & Hparse).
  exists snippet. split; [exact Hparse|].
  now apply status_running_run with (define_property reg serverName r).
Qed.

(** *** Every world the tool reaches *)

(** X12: the registry file is always well formed.  From its creation
    on, whatever commands ran with whatever names and answers of the
    operating system, the file parses to exactly one registry; its names
    are distinct and in key order, none is a property of
    [Object.prototype], and every pid recorded is a safe integer. *)
Theorem reachable_world_holds_one_registry (w : world) :
  reachable w ->
  exists reg,
    holds w reg
    /\ registry_ok reg = true
    /\ forall reg', holds w reg' -> reg' = reg.
Proof.
  intros Hreach. destruct (reachable_registry_ok w Hreach) as (reg & Hh & Hok).
  exists reg. repeat split; try assumption.
  intros reg' Hh'. unfold holds in *. rewrite Hh in Hh'.
  symmetry. apply registry_value_inj. congruence.
Qed.

(** X13: in a world the tool reached, [start], [stop] and [list] always
    return normally (every failure of [stop] is caught and printed), and
    [status] returns normally unless the name is an unrecorded property of
    [Object.prototype], in which case it throws on the missing
    descriptor. *)
Theorem commands_return_in_reachable_worlds
  (E : env) (serverName : string) (w : world) :
  reachable w ->
  env_ok E = true ->
  fst (cmd_start E serverName w) = Ok tt
  /\ fst (cmd_stop E serverName w) = Ok tt
  /\ fst (cmd_list E w) = Ok tt
  /\ (fst (cmd_status serverName w) = Ok tt
      \/ (inherited serverName <> None
          /\ fst (cmd_status serverName w) = Throw (NullDereference "description"))).
Proof.
  intros Hreach Henv.
  destruct (reachable_registry_ok w Hreach) as (reg & Hh & Hok).
  assert (Hwf : registry_wf reg = true) by now apply registry_ok_iff in Hok.
  split; [|split; [|split]].
  - destruct (lookup serverName reg) as [r|] eqn:Hfind.
    + now rewrite (start_present_run E serverName reg r w Hh Hfind).
    + destruct (inherited serverName) as [v|] eqn:Hinh.
      * now rewrite (start_inherited_run E serverName reg v w Hh Hfind Hinh).
      * destruct (start_new_run E serverName reg w Hok Hh Hfind Hinh Henv)
          as (text & Hrun & _). now rewrite Hrun.
  - destruct (lookup serverName reg) as [r|] eqn:Hfind.
    + destruct (signal_outcome_recorded E r) as [Hsig|(err & Hsig)].
      * destruct (stop_delivered_run E serverName reg r w Hwf Hh Hfind Hsig)
          as (text & Hrun & _). now rewrite Hrun.
      * now rewrite (stop_failed_run E serverName reg r w err Hh Hfind Hsig).
    + destruct (inherited serverName) as [v|] eqn:Hinh.
      * now rewrite (stop_inherited_run E serverName reg v w Hh Hfind Hinh).
      * now rewrite (stop_absent_run E serverName reg w Hh Hfind Hinh).
  - now rewrite (list_run E reg w Hh (holds_order w reg Hh)).
  - destruct (lookup serverName reg) as [r|] eqn:Hfind.
    + left.
      destruct (JSON_parse_stringify _
                  (config_object_is_json (remove_first "@" serverName) (info r)))
        as (snippet & Hser & _).
      now rewrite (status_running_run serverName reg r snippet w Hh Hfind Hser).
    + destruct (inherited serverName) as [v|] eqn:Hinh.
      * right. split; [discriminate|].
        now rewrite (status_inherited_run serverName reg v w Hh Hfind Hinh).
      * left. now rewrite (status_absent_run serverName reg w Hh Hfind Hinh).
Qed.

(** X14: the first run.  When the registry file does not exist it is
    created holding the empty object, and on that file [list] prints the
    empty-state message while [stop] and [status] of any name that is not
    a property of [Object.prototype] print the not-running line; an
    existing file is taken as it is, without a write. *)
Theorem first_run_starts_from_empty_registry
  (E : env) (serverName : string) (content : string) :
  inherited serverName = None ->
  exists w0,
    initialize None = Ok w0
    /\ file w0 = "{}"
    /\ trace w0 = [WriteFile "{}"]
    /\ cmd_list E w0
       = (Ok tt,
          World "{}" (trace w0 ++
                        [ReadFile;
                         ConsoleLog "No MCP servers are currently running"]))
    /\ cmd_stop E serverName w0
       = (Ok tt,
          World "{}" (trace w0 ++
                        [ReadFile;
                         ConsoleLog ("Server " ++ serverName ++ " is not running")]))
    /\ cmd_status serverName w0
       = (Ok tt,
          World "{}" (trace w0 ++
                        [ReadFile;
                         ConsoleLog ("Server " ++ serverName ++ " is not running")]))
    /\ initialize (Some content) = Ok (World content []).
Proof.
  intros Hinh. exists (World "{}" [WriteFile "{}"]).
  assert (Hh : holds (World "{}" [WriteFile "{}"]) []) by reflexivity.
  repeat split.
  - exact (stop_absent_run E serverName [] _ Hh eq_refl Hinh).
  - exact (status_absent_run serverName [] _ Hh eq_refl Hinh).
Qed.

(* ================================================================== *)
(** ** The host-application configuration file                         *)
(* ================================================================== *)

Section SetKnownKey.
Variable A : Type.
Implicit Types (ps : list (string * A)) (k : string) (v : A).

Lemma lookup_replace_value k v ps k0 :
  lookup k0 (replace_value k v ps)
  = if String.eqb k k0 then
      match lookup k0 ps with Some _ => Some v | None => None end
    else lookup k0 ps.
Proof.
  induction ps as [|[k' v'] t IH]; cbn [replace_value lookup].
  - now destruct (String.eqb k k0).
  - destruct (String.eqb_spec k' k) as [->|Hne]; cbn [lookup].
    + destruct (String.eqb_spec k k0) as [->|Hne0]; reflexivity.
    + rewrite IH. destruct (String.eqb_spec k' k0) as [->|Hne0];
        destruct (String.eqb_spec k k0); congruence.
Qed.

(** After [o[k] = v], [k] reads [v], and every other key reads as before,
    whether [k] was a key of [o] or not. *)
Lemma lookup_define_any ps k v k0 :
  lookup k0 (define_property ps k v)
  = if String.eqb k k0 then Some v else lookup k0 ps.
Proof.
  unfold define_property. destruct (lookup k ps) as [u|] eqn:Hl.
  - rewrite lookup_replace_value.
    destruct (String.eqb_spec k k0) as [<-|]; [now rewrite Hl | reflexivity].
  - destruct (array_index k) as [n|].
    + now apply lookup_insert_index.
    + rewrite lookup_app. cbn [lookup].
      destruct (String.eqb_spec k k0) as [<-|]; [now rewrite Hl|].
      now destruct (lookup k0 ps).
Qed.

Lemma replace_value_same k v ps :
  lookup k ps = Some v -> replace_value k v ps = ps.
Proof.
  induction ps as [|[k' v'] t IH]; cbn [lookup replace_value]; [reflexivity|].
  destruct (String.eqb k' k); [now intros [= ->] | intros H; now rewrite IH].
Qed.

End SetKnownKey.

Lemma set_property_defines (ps : list (string * value)) (k : string) (v : value) :
  String.eqb k "__proto__" = false ->
  set_property (VObj ps) k v = Ok (VObj (define_property ps k v)).
Proof.
  intros Hk. unfold set_property, define_property.
  destruct (lookup k ps); [reflexivity | now rewrite Hk].
Qed.

(** Two values with the same text give objects with the same text. *)
Lemma serialize_define_congruence (lvl : nat) (ps : list (string * value))
  (k : string) (v v' : value) :
  serialize (S lvl) v = serialize (S lvl) v' ->
  serialize lvl (VObj (define_property ps k v))
  = serialize lvl (VObj (define_property ps k v')).
Proof.
  intros Heq. destruct (lookup k ps) as [u|] eqn:Hl.
  - unfold define_property. rewrite Hl. cbn [serialize]. do 2 f_equal.
    clear Hl. induction ps as [|[k' u'] t IH]; [reflexivity|].
    cbn [replace_value]. destruct (String.eqb k' k); cbn [flat_map].
    + now rewrite Heq.
    + now rewrite IH.
  - now apply serialize_define_same_text.
Qed.

Lemma define_property_json (ps : list (string * value)) (k : string) (v : value) :
  is_json (VObj ps) = true -> is_json v = true ->
  is_json (VObj (define_property ps k v)) = true.
Proof.
  cbn [is_json]. rewrite !andb_true_iff, !forallb_forall.
  intros [Hord Hall] Hv. split.
  - now apply define_property_order.
  - intros [k' x] Hin. apply define_property_members in Hin.
    destruct Hin as [[= -> ->]|Hin]; [assumption | apply (Hall (k', x) Hin)].
Qed.

Lemma claude_entry_of_descriptor (default_key : option string) (i : ServerInfo) :
  claude_entry default_key (info_value i)
  = Ok (VObj [ ("endpoint", VStr "http://localhost:3000");
               ("apiKey", env_value default_key);
               ("protocols", VArr [VStr "grpc"; VStr "rest"]);
               ("metadata", VObj []) ]).
Proof. reflexivity. Qed.

Lemma default_entry_text (default_key : option string) (lvl : nat) :
  serialize lvl (VObj [ ("endpoint", VStr "http://localhost:3000");
                        ("apiKey", env_value default_key);
                        ("protocols", VArr [VStr "grpc"; VStr "rest"]);
                        ("metadata", VObj []) ])
  = serialize lvl (default_entry default_key).
Proof. now destruct default_key. Qed.

Lemma default_entry_json (default_key : option string) :
  is_json (default_entry default_key) = true.
Proof. now destruct default_key. Qed.

(** What one update does to a configuration that is an object. *)
Lemma updateClaudeConfig_run
  (path : string) (default_key : option string) (serverName : string)
  (i : ServerInfo) (existing : option string) (ps : list (string * value)) :
  match existing with
  | Some text => JSON_parse text
  | None => Ok (VObj [])
  end = Ok (VObj ps) ->
  String.eqb serverName "__proto__" = false ->
  exists text,
    updateClaudeConfig path default_key serverName (info_value i) existing
    = Ok (text, "Updated Claude configuration at " ++ path)
    /\ JSON_stringify (VObj (define_property ps serverName (default_entry default_key)))
       = Some text
    /\ JSON_parse text
       = Ok (VObj (define_property ps serverName (default_entry default_key))).
Proof.
  intros Hconfig Hname.
  assert (Hjson : is_json (VObj ps) = true).
  { destruct existing as [text0|].
    - now apply JSON_parse_is_json with text0.
    - now injection Hconfig as <-. }
  destruct (JSON_parse_stringify _
              (define_property_json ps serverName _ Hjson
                 (default_entry_json default_key)))
    as (text & Hser & Hparse).
  exists text. repeat split; try assumption.
  unfold updateClaudeConfig. rewrite Hconfig. cbn [rbind].
  rewrite claude_entry_of_descriptor. cbn [rbind].
  rewrite set_property_defines by assumption. cbn [rbind].
  unfold JSON_stringify in *.
  rewrite (serialize_define_congruence 0 ps serverName _ _
             (default_entry_text default_key 1)).
  now rewrite Hser.
Qed.


(** X16: updating twice changes nothing more.  Running
    [updateClaudeConfig] again with the same server on the file the first
    run wrote writes the very same text. *)
Theorem updateClaudeConfig_twice
  (path : string) (default_key : option string) (serverName : string)
  (i : ServerInfo) (existing : option string) (ps : list (string * value))
  (text line : string) :
  match existing with
  | Some text0 => JSON_parse text0
  | None => Ok (VObj [])
  end = Ok (VObj ps) ->
  String.eqb serverName "__proto__" = false ->
  updateClaudeConfig path default_key serverName (info_value i) existing
  = Ok (text, line) ->
  updateClaudeConfig path default_key serverName (info_value i) (Some text)
  = Ok (text, line).
Proof.
  intros Hconfig Hname Hfirst.
  destruct (updateClaudeConfig_run path default_key serverName i existing ps
              Hconfig Hname) as (text1 & Hrun & Hser & Hparse).
  rewrite Hrun in Hfirst. injection Hfirst as <- <-.
  destruct (updateClaudeConfig_run path default_key serverName i (Some text1) _
              Hparse Hname) as (text2 & Hrun2 & Hser2 & _).
  rewrite Hrun2. do 2 f_equal.
  assert (Hsame : define_property
                    (define_property ps serverName (default_entry default_key))
                    serverName (default_entry default_key)
                  = define_property ps serverName (default_entry default_key)).
  { unfold define_property at 1.
    rewrite lookup_define_any, String.eqb_refl.
    apply replace_value_same. now rewrite lookup_define_any, String.eqb_refl. }
  rewrite Hsame in Hser2. congruence.
Qed.


(* ================================================================== *)
(** ** The further properties on concrete worlds                       *)
(* ================================================================== *)


Lemma corrupt_registry_stops_every_command_witness :
  JSON_parse (file corrupt_world) = Throw JsonSyntaxError
  /\ cmd_list demo_env corrupt_world
     = (Throw JsonSyntaxError, World (file corrupt_world) [ReadFile]).
Proof.
  assert (H1 : JSON_parse (file corrupt_world) = Throw JsonSyntaxError)
    by (vm_compute; reflexivity).
  split; [exact H1|].
  exact (proj2 (proj2 (proj2
           (corrupt_registry_stops_every_command demo_env "alice/demo"
              corrupt_world JsonSyntaxError H1)))).
Defined.

Lemma start_records_new_server_witness :
  registry_ok demo_registry = true
  /\ holds demo_world demo_registry
  /\ lookup "bob/tool" demo_registry = None
  /\ inherited "bob/tool" = None
  /\ env_ok demo_env = true
  /\ exists text,
       fst (cmd_start demo_env "bob/tool" demo_world) = Ok tt
       /\ file (snd (cmd_start demo_env "bob/tool" demo_world)) = text
       /\ holds (World text [])
            (define_property demo_registry "bob/tool"
               {| pid := Some 4242%Z; startTime := now_iso demo_env;
                  info := fetched_info "bob/tool" |}).
Proof.
  assert (H0 : registry_ok demo_registry = true) by (vm_compute; reflexivity).
  assert (H1 : holds demo_world demo_registry) by (vm_compute; reflexivity).
  assert (H2 : lookup "bob/tool" demo_registry = None) by reflexivity.
  assert (H3 : inherited "bob/tool" = None) by reflexivity.
  assert (H4 : env_ok demo_env = true) by reflexivity.
  repeat (split; [assumption|]).
  destruct (start_records_new_server demo_env "bob/tool" demo_registry demo_world
              H0 H1 H2 H3 H4) as (text & Hrun & Hh & _).
  exists text. rewrite Hrun. repeat split. apply Hh.
Defined.

Lemma stop_and_status_of_unknown_name_witness :
  holds demo_world demo_registry
  /\ lookup "bob/tool" demo_registry = None
  /\ inherited "bob/tool" = None
  /\ cmd_stop demo_env "bob/tool" demo_world
     = (Ok tt,
        World (file demo_world)
          [ReadFile; ConsoleLog "Server bob/tool is not running"]).
Proof.
  assert (H1 : holds demo_world demo_registry) by (vm_compute; reflexivity).
  assert (H2 : lookup "bob/tool" demo_registry = None) by reflexivity.
  assert (H3 : inherited "bob/tool" = None) by reflexivity.
  repeat (split; [assumption|]).
  exact (proj1 (stop_and_status_of_unknown_name demo_env "bob/tool" demo_registry
                  demo_world H1 H2 H3)).
Defined.

Lemma start_then_stop_restores_registry_witness :
  registry_ok demo_registry = true
  /\ holds demo_world demo_registry
  /\ lookup "bob/tool" demo_registry = None
  /\ inherited "bob/tool" = None
  /\ spawn_pid demo_env = Some 4242%Z
  /\ safe_integer 4242 = true
  /\ signal_outcome demo_env (VNum 4242) = Ok tt
  /\ holds (snd (cmd_stop demo_env "bob/tool"
                   (snd (cmd_start demo_env "bob/tool" demo_world))))
       demo_registry.
Proof.
  assert (H0 : registry_ok demo_registry = true) by (vm_compute; reflexivity).
  assert (H1 : holds demo_world demo_registry) by (vm_compute; reflexivity).
  assert (H2 : lookup "bob/tool" demo_registry = None) by reflexivity.
  assert (H3 : inherited "bob/tool" = None) by reflexivity.
  assert (H4 : spawn_pid demo_env = Some 4242%Z) by reflexivity.
  assert (H5 : safe_integer 4242 = true) by reflexivity.
  assert (H6 : signal_outcome demo_env (VNum 4242) = Ok tt) by reflexivity.
  repeat (split; [assumption|]).
  exact (proj1 (proj2 (start_then_stop_restores_registry demo_env demo_env
                         "bob/tool" demo_registry demo_world 4242
                         H0 H1 H2 H3 H4 H5 H6))).
Defined.

Lemma second_start_is_refused_witness :
  registry_ok demo_registry = true
  /\ holds demo_world demo_registry
  /\ lookup "bob/tool" demo_registry = None
  /\ inherited "bob/tool" = None
  /\ env_ok demo_env = true
  /\ fst (cmd_start failing_spawn_env "bob/tool"
            (snd (cmd_start demo_env "bob/tool" demo_world))) = Ok tt.
Proof.
  assert (H0 : registry_ok demo_registry = true) by (vm_compute; reflexivity).
  assert (H1 : holds demo_world demo_registry) by (vm_compute; reflexivity).
  assert (H2 : lookup "bob/tool" demo_registry = None) by reflexivity.
  assert (H3 : inherited "bob/tool" = None) by reflexivity.
  assert (H4 : env_ok demo_env = true) by reflexivity.
  repeat (split; [assumption|]).
  exact (f_equal fst (second_start_is_refused demo_env failing_spawn_env "bob/tool"
                        demo_registry demo_world H0 H1 H2 H3 H4)).
Defined.

Lemma entry_without_pid_cannot_be_stopped_witness :
  registry_ok demo_registry = true
  /\ holds demo_world demo_registry
  /\ lookup "bob/tool" demo_registry = None
  /\ inherited "bob/tool" = None
  /\ spawn_pid failing_spawn_env = None
  /\ fst (cmd_start failing_spawn_env "bob/tool" demo_world) = Ok tt.
Proof.
  assert (H0 : registry_ok demo_registry = true) by (vm_compute; reflexivity).
  assert (H1 : holds demo_world demo_registry) by (vm_compute; reflexivity).
  assert (H2 : lookup "bob/tool" demo_registry = None) by reflexivity.
  assert (H3 : inherited "bob/tool" = None) by reflexivity.
  assert (H4 : spawn_pid failing_spawn_env = None) by reflexivity.
  repeat (split; [assumption|]).
  exact (proj1 (entry_without_pid_cannot_be_stopped failing_spawn_env demo_env
                  "bob/tool" demo_registry demo_world H0 H1 H2 H3 H4)).
Defined.

Lemma second_stop_finds_nothing_witness :
  registry_ok demo_registry = true
  /\ holds demo_world demo_registry
  /\ lookup "alice/demo" demo_registry = Some (demo_record "alice/demo" 4242)
  /\ signal_outcome demo_env (pid_value (demo_record "alice/demo" 4242)) = Ok tt
  /\ fst (cmd_stop demo_env "alice/demo"
            (snd (cmd_stop demo_env "alice/demo" demo_world))) = Ok tt.
Proof.
  assert (H0 : registry_ok demo_registry = true) by (vm_compute; reflexivity).
  assert (H1 : holds demo_world demo_registry) by (vm_compute; reflexivity).
  assert (H2 : lookup "alice/demo" demo_registry
               = Some (demo_record "alice/demo" 4242)) by reflexivity.
  assert (H3 : signal_outcome demo_env (pid_value (demo_record "alice/demo" 4242))
               = Ok tt) by reflexivity.
  repeat (split; [assumption|]).
  exact (f_equal fst (second_stop_finds_nothing demo_env demo_env "alice/demo"
                        demo_registry _ demo_world H0 H1 H2 H3)).
Defined.

Lemma inherited_names_are_unmanageable_witness :
  holds demo_world demo_registry
  /\ lookup "toString" demo_registry = None
  /\ inherited "toString" = Some (VFunction "toString")
  /\ cmd_start demo_env "toString" demo_world
     = (Ok tt,
        World (file demo_world)
          [ ReadFile;
            ConsoleLog "Server toString is already running (PID: undefined)" ]).
Proof.
  assert (H1 : holds demo_world demo_registry) by (vm_compute; reflexivity).
  assert (H2 : lookup "toString" demo_registry = None) by reflexivity.
  assert (H3 : inherited "toString" = Some (VFunction "toString")) by reflexivity.
  repeat (split; [assumption|]).
  exact (proj1 (inherited_names_are_unmanageable demo_env "toString" _
                  demo_registry demo_world H1 H2 H3)).
Defined.

Lemma fetchServerInfo_ignores_later_pieces_witness :
  contains "/" "a" = false
  /\ contains "/" "b" = false
  /\ fst (fetchServerInfo "a/b/c" demo_world)
     = Ok (VObj [ ("name", VStr "a/b/c");
                  ("command", VStr "npx");
                  ("args", VArr [VStr "-y"; VStr "a/b/c"]);
                  ("description", VStr "MCP Server for b");
                  ("version", VStr "1.0.0") ]).
Proof.
  assert (H1 : contains "/" "a" = false) by reflexivity.
  assert (H2 : contains "/" "b" = false) by reflexivity.
  repeat (split; [assumption|]).
  exact (fetchServerInfo_ignores_later_pieces "a" "b" "c" demo_world H1 H2).
Defined.

Lemma status_after_start_witness :
  registry_ok demo_registry = true
  /\ holds demo_world demo_registry
  /\ lookup "bob/tool" demo_registry = None
  /\ inherited "bob/tool" = None
  /\ env_ok demo_env = true
  /\ fst (cmd_status "bob/tool" (snd (cmd_start demo_env "bob/tool" demo_world)))
     = Ok tt.
Proof.
  assert (H0 : registry_ok demo_registry = true) by (vm_compute; reflexivity).
  assert (H1 : holds demo_world demo_registry) by (vm_compute; reflexivity).
  assert (H2 : lookup "bob/tool" demo_registry = None) by reflexivity.
  assert (H3 : inherited "bob/tool" = None) by reflexivity.
  assert (H4 : env_ok demo_env = true) by reflexivity.
  repeat (split; [assumption|]).
  destruct (status_after_start demo_env "bob/tool" demo_registry demo_world
              H0 H1 H2 H3 H4) as (snippet & _ & Hrun).
  now rewrite Hrun.
Defined.

Lemma reachable_world_holds_one_registry_witness :
  reachable (snd (cmd_start demo_env "alice/demo" fresh_world))
  /\ exists reg,
       holds (snd (cmd_start demo_env "alice/demo" fresh_world)) reg
       /\ registry_ok reg = true.
Proof.
  assert (H1 : reachable (snd (cmd_start demo_env "alice/demo" fresh_world)))
    by (apply reach_start; [reflexivity | exact reach_created]).
  split; [exact H1|].
  destruct (reachable_world_holds_one_registry _ H1) as (reg & Hh & Hok & _).
  exists reg. split; [exact Hh | exact Hok].
Defined.

Lemma commands_return_in_reachable_worlds_witness :
  reachable fresh_world
  /\ env_ok demo_env = true
  /\ fst (cmd_stop demo_env "alice/demo" fresh_world) = Ok tt.
Proof.
  assert (H1 : reachable fresh_world) by exact reach_created.
  assert (H2 : env_ok demo_env = true) by reflexivity.
  repeat (split; [assumption|]).
  exact (proj1 (proj2 (commands_return_in_reachable_worlds demo_env "alice/demo"
                         fresh_world H1 H2))).
Defined.

Lemma first_run_starts_from_empty_registry_witness :
  inherited "alice/demo" = None
  /\ exists w0,
       initialize None = Ok w0
       /\ cmd_list demo_env w0
          = (Ok tt,
             World "{}" (trace w0 ++
                           [ReadFile;
                            ConsoleLog "No MCP servers are currently running"])).
Proof.
  assert (H1 : inherited "alice/demo" = None) by reflexivity.
  split; [exact H1|].
  destruct (first_run_starts_from_empty_registry demo_env "alice/demo" "{}" H1)
    as (w0 & Hinit & _ & _ & Hlist & _).
  exists w0. split; [exact Hinit | exact Hlist].
Defined.


Lemma updateClaudeConfig_twice_witness :
  String.eqb "alice/demo" "__proto__" = false
  /\ updateClaudeConfig "mcp-servers.json" None "alice/demo"
       (info_value (fetched_info "alice/demo")) None
     = Ok (json_text (VObj [("alice/demo", default_entry None)]),
           "Updated Claude configuration at mcp-servers.json")
  /\ updateClaudeConfig "mcp-servers.json" None "alice/demo"
       (info_value (fetched_info "alice/demo"))
       (Some (json_text (VObj [("alice/demo", default_entry None)])))
     = Ok (json_text (VObj [("alice/demo", default_entry None)]),
           "Updated Claude configuration at mcp-servers.json").
Proof.
  assert (H1 : match @None string with
               | Some text => JSON_parse text
               | None => Ok (VObj [])
               end = Ok (VObj (@nil (string * value)))) by reflexivity.
  assert (H2 : String.eqb "alice/demo" "__proto__" = false) by reflexivity.
  assert (H3 : updateClaudeConfig "mcp-servers.json" None "alice/demo"
                 (info_value (fetched_info "alice/demo")) None
               = Ok (json_text (VObj [("alice/demo", default_entry None)]),
                     "Updated Claude configuration at mcp-servers.json"))
    by (vm_compute; reflexivity).
  split; [exact H2|]. split; [exact H3|].
  exact (updateClaudeConfig_twice "mcp-servers.json" None "alice/demo"
           (fetched_info "alice/demo") None [] _ _ H1 H2 H3).
Defined.

